(** * US-India CPI dashboard: the data preparation and derived-metrics pipeline

    A shallow embedding of [README.py], the Streamlit script of the
    repository.  The script loads a table with the columns [Date], [US_CPI],
    [India_CPI] and [Exchange_Rate_INR_USD], filters it to an inclusive date
    range, computes three cumulative changes and their differential, and adds
    derived columns (year-over-year inflation, normalised series, PPP implied
    rate and deviation) to the filtered copy.

    Numbers are binary64 floats, as Python's [float] and pandas' [float64]
    are: the embedding uses Rocq's primitive floats, so every arithmetic
    step below rounds exactly as the script's does, and division by zero
    yields an infinity or a NaN instead of an exception.  Data frames are
    objects on a heap, named by references, because the script mutates
    [df_filtered] in place while [df] must stay as loaded. *)

From stdpp Require Import gmap strings list.
From Stdlib Require Import ZArith Lia Bool Floats Sorted Reals Lra.

Local Open Scope string_scope.
Local Open Scope list_scope.
Local Open Scope Z_scope.

(** ** Calendar dates

    [df['Date'].dt.date] yields [datetime.date] values, which Python orders
    as the triples (year, month, day). *)

Record date := mkdate { year : Z; month : Z; day : Z }.

Definition date_leb (a b : date) : bool :=
  (year a <? year b)
  || ((year a =? year b)
      && ((month a <? month b)
          || ((month a =? month b) && (day a <=? day b)))).

(** [a >= b] on dates is [b <= a]. *)
Definition date_geb (a b : date) : bool := date_leb b a.

Definition date_le (a b : date) : Prop := date_leb a b = true.

(** ** Exceptions and results

    [IndexError] is what pandas' positional indexer [.iloc] raises out of
    bounds and [KeyError] what a missing column label raises.  The last two
    constructors are the error classes named by the specification's error
    taxonomy; they are here so that statements about them can be written.
    No operation of the script constructs them. *)

Inductive exception :=
  | IndexError
  | KeyError
  | EmptyRangeError
  | DivisionByZeroError.

Inductive result (A : Type) :=
  | Ok (a : A)
  | Raise (e : exception).
Arguments Ok {A} a.
Arguments Raise {A} e.

Definition rbind {A B} (r : result A) (k : A -> result B) : result B :=
  match r with
  | Ok a => k a
  | Raise e => Raise e
  end.

Declare Scope result_scope.
Delimit Scope result_scope with result.
Notation "x <- r ;; k" := (rbind r (fun x => k))
  (at level 100, r at next level, right associativity) : result_scope.

Definition is_ok {A} (r : result A) : bool :=
  match r with Ok _ => true | Raise _ => false end.

(** ** Series: a column of binary64 values

    All series of the script are columns of one frame, so they share its
    index and element-wise operations pair the cells by position. *)

Definition Series := list float.

Definition nan : float := PrimFloat.nan.

(** [s.iloc[i]]: negative positions count from the end; a position outside
    the series raises [IndexError]. *)
Definition iloc (s : Series) (i : Z) : result float :=
  let n := Z.of_nat (length s) in
  let j := if i <? 0 then i + n else i in
  if (0 <=? j) && (j <? n)
  then match nth_error s (Z.to_nat j) with
       | Some v => Ok v
       | None => Raise IndexError
       end
  else Raise IndexError.

(** Series (op) scalar, scalar (op) Series and Series (op) Series. *)
Definition sdiv_scalar (s : Series) (c : float) : Series :=
  List.map (fun x => (x / c)%float) s.
Definition smul_scalar (s : Series) (c : float) : Series :=
  List.map (fun x => (x * c)%float) s.
Definition ssub_scalar (s : Series) (c : float) : Series :=
  List.map (fun x => (x - c)%float) s.
Definition scalar_smul (c : float) (s : Series) : Series :=
  List.map (fun x => (c * x)%float) s.

Fixpoint szip (op : float -> float -> float) (a b : Series) : Series :=
  match a, b with
  | x :: a', y :: b' => op x y :: szip op a' b'
  | _, _ => []
  end.

Definition sdiv (a b : Series) : Series := szip PrimFloat.div a b.
Definition ssub (a b : Series) : Series := szip PrimFloat.sub a b.

(** [s.shift(periods)]: the values move down by [periods] records, the
    first [periods] cells become NaN and the length is kept. *)
Definition shift (periods : nat) (s : Series) : Series :=
  firstn (length s) (repeat nan periods ++ s).

(** [s.ffill()]: a missing cell (NaN) takes the value of the last cell
    before it that is not missing; missing cells before the first value
    stay missing.  [prev] is the last value seen so far. *)
Fixpoint ffill_from (prev : option float) (s : Series) : Series :=
  match s with
  | [] => []
  | x :: s' =>
      if is_nan x
      then match prev with
           | Some p => p :: ffill_from prev s'
           | None => x :: ffill_from None s'
           end
      else x :: ffill_from (Some x) s'
  end.

Definition ffill (s : Series) : Series := ffill_from None s.

(** [s.pct_change(periods)], called as on lines 172-173 with the one
    argument, so with the default [fill_method='pad'] of the pandas
    releases that accept line 29's [freq='M']:
    [data = s.ffill(); data / data.shift(periods) - 1]. *)
Definition pct_change (periods : nat) (s : Series) : Series :=
  let data := ffill s in
  ssub_scalar (sdiv data (shift periods data)) 1.

(** ** Data frames *)

Record row := mkrow {
  label : Z;                       (* the index label of the record *)
  Date : date;
  US_CPI : float;
  India_CPI : float;
  Exchange_Rate_INR_USD : float
}.

(** A frame holds its records and, in insertion order, the columns it has
    besides the four of a record.  Every frame is a table with the columns
    'Date', 'US_CPI', 'India_CPI' and 'Exchange_Rate_INR_USD', as line 45
    builds it and as the upload form asks for: an uploaded file that lacks
    one of them, on which [df['Date']] or a later column access raises
    [KeyError], is not a value of this type. *)
Record DataFrame := mkframe {
  rows : list row;
  added : list (string * Series)
}.

Fixpoint assoc (name : string) (cs : list (string * Series)) : option Series :=
  match cs with
  | [] => None
  | (k, v) :: cs' => if String.eqb k name then Some v else assoc name cs'
  end.

(** [df[name]] for a column of numbers: one of the three loaded ones, which
    every frame has, or a further column, which raises [KeyError] when the
    frame has none of that name. *)
Definition getitem (df : DataFrame) (name : string) : result Series :=
  if String.eqb name "US_CPI" then Ok (List.map US_CPI (rows df))
  else if String.eqb name "India_CPI" then Ok (List.map India_CPI (rows df))
  else if String.eqb name "Exchange_Rate_INR_USD"
       then Ok (List.map Exchange_Rate_INR_USD (rows df))
  else match assoc name (added df) with
       | Some s => Ok s
       | None => Raise KeyError
       end.

Fixpoint assoc_set (name : string) (s : Series) (cs : list (string * Series))
  : list (string * Series) :=
  match cs with
  | [] => [(name, s)]
  | (k, v) :: cs' =>
      if String.eqb k name then (k, s) :: cs' else (k, v) :: assoc_set name s cs'
  end.

(** [df[name] = s] for a column that is not one of the four loaded ones (the
    script assigns no other): replaces the column or appends it. *)
Definition setitem (df : DataFrame) (name : string) (s : Series) : DataFrame :=
  mkframe (rows df) (assoc_set name s (added df)).

(** Selection by a boolean mask, position by position. *)
Fixpoint select {A} (mask : list bool) (l : list A) : list A :=
  match mask, l with
  | b :: mask', x :: l' => if b then x :: select mask' l' else select mask' l'
  | _, _ => []
  end.

(** [df[mask]]: a new frame with the selected records of every column. *)
Definition getitem_mask (df : DataFrame) (mask : list bool) : DataFrame :=
  mkframe (select mask (rows df))
          (List.map (fun kv => (fst kv, select mask (snd kv))) (added df)).

(** [(df['Date'].dt.date >= start_date) & (df['Date'].dt.date <= end_date)] *)
Definition date_mask (df : DataFrame) (start_date end_date : date) : list bool :=
  List.map (fun r => date_geb (Date r) start_date && date_leb (Date r) end_date)
           (rows df).

(** Lines 74-75: [df['Date'].min().date()] and [df['Date'].max().date()], the
    bounds offered by the two date inputs; [None] stands for the NaT that
    pandas gives for a column without records. *)
Definition min_date (df : DataFrame) : option date :=
  match rows df with
  | [] => None
  | r :: rs =>
      Some (fold_left (fun m x => if date_leb (Date x) m then Date x else m) rs (Date r))
  end.

Definition max_date (df : DataFrame) : option date :=
  match rows df with
  | [] => None
  | r :: rs =>
      Some (fold_left (fun m x => if date_leb m (Date x) then Date x else m) rs (Date r))
  end.

(** [df.copy()]: a deep copy, equal as a value. *)
Definition copy (df : DataFrame) : DataFrame := mkframe (rows df) (added df).

(** Lines 81-82: [mask = ...; df_filtered = df[mask].copy()] as a function of
    the loaded frame and the two bounds. *)
Definition filter_range (df : DataFrame) (start_date end_date : date) : DataFrame :=
  copy (getitem_mask df (date_mask df start_date end_date)).

(** ** Summary metrics (lines 85-92 and 119) *)

Local Open Scope result_scope.

Definition calculate_metrics (df : DataFrame) : result (float * float * float) :=
  us <- getitem df "US_CPI" ;;
  us_last <- iloc us (-1) ;;
  us' <- getitem df "US_CPI" ;;
  us_first <- iloc us' 0 ;;
  let us_inflation := ((us_last / us_first - 1) * 100)%float in
  ind <- getitem df "India_CPI" ;;
  ind_last <- iloc ind (-1) ;;
  ind' <- getitem df "India_CPI" ;;
  ind_first <- iloc ind' 0 ;;
  let india_inflation := ((ind_last / ind_first - 1) * 100)%float in
  fx <- getitem df "Exchange_Rate_INR_USD" ;;
  fx_last <- iloc fx (-1) ;;
  fx' <- getitem df "Exchange_Rate_INR_USD" ;;
  fx_first <- iloc fx' 0 ;;
  let exchange_change := ((fx_last / fx_first - 1) * 100)%float in
  Ok (us_inflation, india_inflation, exchange_change).

(** The four scalars shown in the metrics row. *)
Record SummaryMetrics := mksummary {
  us_inf : float;
  india_inf : float;
  fx_change : float;
  inflation_diff : float
}.

(** Lines 92 and 119: [us_inf, india_inf, fx_change = calculate_metrics(..)]
    and [inflation_diff = india_inf - us_inf]. *)
Definition compute_summary (df_filtered : DataFrame) : result SummaryMetrics :=
  m <- calculate_metrics df_filtered ;;
  let '(us_inf, india_inf, fx_change) := m in
  Ok (mksummary us_inf india_inf fx_change (india_inf - us_inf)%float).

(** ** Derived columns *)

(** Lines 172-173: [df[col].pct_change(12) * 100] *)
Definition year_over_year (df : DataFrame) (col : string) : result Series :=
  s <- getitem df col ;;
  Ok (smul_scalar (pct_change 12 s) 100).

(** Lines 241-243: [(df[col] / df[col].iloc[0]) * 100] *)
Definition normalize (df : DataFrame) (col : string) : result Series :=
  s <- getitem df col ;;
  s' <- getitem df col ;;
  base <- iloc s' 0 ;;
  Ok (smul_scalar (sdiv_scalar s base) 100).

(** Line 282:
    [fx.iloc[0] * (India_CPI / US_CPI) / (India_CPI.iloc[0] / US_CPI.iloc[0])] *)
Definition ppp_implied (df : DataFrame) : result Series :=
  fx <- getitem df "Exchange_Rate_INR_USD" ;;
  fx0 <- iloc fx 0 ;;
  cpi_b <- getitem df "India_CPI" ;;
  cpi_a <- getitem df "US_CPI" ;;
  let scaled := scalar_smul fx0 (sdiv cpi_b cpi_a) in
  cpi_b' <- getitem df "India_CPI" ;;
  b0 <- iloc cpi_b' 0 ;;
  cpi_a' <- getitem df "US_CPI" ;;
  a0 <- iloc cpi_a' 0 ;;
  Ok (sdiv_scalar scaled (b0 / a0)%float).

(** Line 283:
    [((fx - df['PPP_Implied']) / df['PPP_Implied']) * 100] *)
Definition ppp_deviation (df : DataFrame) : result Series :=
  fx <- getitem df "Exchange_Rate_INR_USD" ;;
  implied <- getitem df "PPP_Implied" ;;
  implied' <- getitem df "PPP_Implied" ;;
  Ok (smul_scalar (sdiv (ssub fx implied) implied') 100).

(** ** The script, statement by statement

    Frames live on a heap and variables hold references, as in Python:
    [df[mask]] and [.copy()] each build a new object, and an assignment
    [df_filtered[name] = ...] updates the object that [df_filtered] names.
    A computation takes the heap and returns a result together with the heap
    it leaves, also when it raises. *)

Definition loc := positive.

Definition M (A : Type) : Type := gmap loc DataFrame -> result A * gmap loc DataFrame.

Definition mret {A} (a : A) : M A := fun h => (Ok a, h).

Definition mbind {A B} (m : M A) (k : A -> M B) : M B :=
  fun h => match m h with
           | (Ok a, h') => k a h'
           | (Raise e, h') => (Raise e, h')
           end.

Declare Scope script_scope.
Delimit Scope script_scope with script.
Notation "x <- m ;; k" := (mbind m (fun x => k))
  (at level 100, m at next level, right associativity) : script_scope.
Notation "m ;;; k" := (mbind m (fun _ => k))
  (at level 100, right associativity) : script_scope.

Definition lift {A} (r : result A) : M A := fun h => (r, h).

(** A new object at a reference that the heap does not use yet. *)
Definition alloc (d : DataFrame) : M loc :=
  fun h => let l := fresh (dom h) in (Ok l, <[l := d]> h).

(** The object a reference names.  (A reference without an object does not
    occur in the script; reading one is reported as a [KeyError].) *)
Definition load (l : loc) : M DataFrame :=
  fun h => match h !! l with
           | Some d => (Ok d, h)
           | None => (Raise KeyError, h)
           end.

Definition store (l : loc) (d : DataFrame) : M unit :=
  fun h => (Ok tt, <[l := d]> h).

Local Open Scope script_scope.

(** [target[name] = expr(target)]: the right-hand side is evaluated first,
    then the column is set on the object that [target] names. *)
Definition assign (target : loc) (name : string)
    (expr : DataFrame -> result Series) : M unit :=
  d <- load target ;;
  s <- lift (expr d) ;;
  d' <- load target ;;
  store target (setitem d' name s).

(** What the script leaves for the views: the reference of the filtered
    copy and the four summary figures. *)
Record Outputs := mkoutputs {
  df_filtered : loc;
  metrics : SummaryMetrics
}.

(** Lines 81-82, "Filter data": [df_filtered = df[mask].copy()]. *)
Definition filter_data (df : loc) (start_date end_date : date) : M loc :=
  raw <- load df ;;
  let mask := date_mask raw start_date end_date in
  selected <- alloc (getitem_mask raw mask) ;;
  sel <- load selected ;;
  alloc (copy sel).

(** Lines 92 and 119, "Key Metrics Row". *)
Definition key_metrics (df_filtered : loc) : M SummaryMetrics :=
  cur <- load df_filtered ;;
  lift (compute_summary cur).

(** Lines 172-173, in the first tab. *)
Definition yoy_columns (df_filtered : loc) : M unit :=
  assign df_filtered "US_Inflation_YoY" (fun d => year_over_year d "US_CPI") ;;;
  assign df_filtered "India_Inflation_YoY" (fun d => year_over_year d "India_CPI").

(** Lines 241-243, in the third tab. *)
Definition normalized_columns (df_filtered : loc) : M unit :=
  assign df_filtered "US_CPI_Normalized" (fun d => normalize d "US_CPI") ;;;
  assign df_filtered "India_CPI_Normalized" (fun d => normalize d "India_CPI") ;;;
  assign df_filtered "Exchange_Rate_Normalized"
         (fun d => normalize d "Exchange_Rate_INR_USD").

(** Lines 282-283, in the third tab. *)
Definition ppp_columns (df_filtered : loc) : M unit :=
  assign df_filtered "PPP_Implied" ppp_implied ;;;
  assign df_filtered "PPP_Deviation" ppp_deviation.

(** The script from line 81 to line 283: the filter, the key figures and
    the seven column assignments.  Every tab body runs on every execution
    of the script, so the derived columns are always computed, in this
    order.  The statements in between that only read [df_filtered] (the
    metric widgets, the charts, the mean, minimum and maximum rate) change
    no frame and are left out.  The lines after 283 (the correlation
    matrix, the scatter plot with its trendline, the table and its
    download) are library calls that assign to no frame; they are not part
    of [script], so a result of [script] is the state at line 283 and says
    nothing about what those calls may raise. *)
Definition script (df : loc) (start_date end_date : date) : M Outputs :=
  df_filtered <- filter_data df start_date end_date ;;
  summary <- key_metrics df_filtered ;;
  yoy_columns df_filtered ;;;
  normalized_columns df_filtered ;;;
  ppp_columns df_filtered ;;;
  mret (mkoutputs df_filtered summary).

Local Close Scope script_scope.

(** *** The derived columns as a function of the filtered frame

    The column assignments of lines 172-283 read nothing but the frame they
    update, so their combined effect on that frame is a function of it:
    each step evaluates its right-hand side on the frame so far and sets
    the column. *)

Definition with_column (d : DataFrame) (name : string)
    (expr : DataFrame -> result Series) : result DataFrame :=
  (s <- expr d ;; Ok (setitem d name s))%result.

Definition derived_table (d : DataFrame) : result DataFrame :=
  (d1 <- with_column d "US_Inflation_YoY" (fun d => year_over_year d "US_CPI") ;;
   d2 <- with_column d1 "India_Inflation_YoY" (fun d => year_over_year d "India_CPI") ;;
   d3 <- with_column d2 "US_CPI_Normalized" (fun d => normalize d "US_CPI") ;;
   d4 <- with_column d3 "India_CPI_Normalized" (fun d => normalize d "India_CPI") ;;
   d5 <- with_column d4 "Exchange_Rate_Normalized"
                     (fun d => normalize d "Exchange_Rate_INR_USD") ;;
   d6 <- with_column d5 "PPP_Implied" ppp_implied ;;
   with_column d6 "PPP_Deviation" ppp_deviation)%result.

(** ** The correlation matrix (line 316)

    [df_filtered[[...]].corr()] is pandas' pairwise Pearson correlation.  Its
    code is pandas', not the script's; it is modelled by what it is
    documented to compute, Pearson's r, on the real numbers that the cells
    denote.  The model is meant for frames whose cells are all finite
    (pandas leaves out missing cells pair by pair); the rounding of pandas'
    own binary64 routine is outside it. *)

(** The real number a finite binary64 value denotes (0 for the others). *)
Definition float_to_R (x : float) : R :=
  match Prim2SF x with
  | S754_finite s m e => ((if s then -1 else 1) * IZR (Z.pos m) * powerRZ 2 e)%R
  | _ => 0%R
  end.










(** ** Vocabulary of the statements *)

(** The percent change from [first] to [last], [(last / first - 1) * 100]. *)
Definition percent_change (first last : float) : float :=
  ((last / first - 1) * 100)%float.

(** A finite binary64 value other than [0.0] and [-0.0]. *)
Definition finite_nonzero (x : float) : bool := is_finite x && negb (is_zero x).

(** An infinity or a NaN. *)
Definition not_finite (x : float) : bool := is_nan x || is_infinity x.

(** The records of a frame whose date lies in the inclusive range. *)
Definition in_range (start_date end_date : date) (r : row) : bool :=
  date_geb (Date r) start_date && date_leb (Date r) end_date.


(** A frame is sorted when each record's date is at most the next one's. *)
Definition sorted_by_date (df : DataFrame) : Prop :=
  Sorted (fun a b => date_le (Date a) (Date b)) (rows df).

(** Values of ordinary magnitude: positive, between 2^-300 and 2^300. *)
Definition ordinary (x : float) : bool :=
  (0x1p-300 <=? x)%float && (x <=? 0x1p+300)%float.

(** Powers of two in the reals. *)
Definition p2 (z : Z) : R := powerRZ 2 z.

(** The rational N/D, floored to the mantissa of [mrs], with the round and
    sticky bits telling where it lies between mantissa and mantissa + 1. *)
Definition represents (N D : Z) (mrs : shr_record) : Prop :=
  let m := shr_m mrs in
  0 < D /\ 0 <= m /\ m * D <= N < (m + 1) * D
  /\ match shr_r mrs, shr_s mrs with
     | false, false => N = m * D
     | false, true => m * D < N /\ 2 * N < (2 * m + 1) * D
     | true, false => 2 * N = (2 * m + 1) * D
     | true, true => (2 * m + 1) * D < 2 * N
     end.

(** The last step of IEEE rounding: one more alignment of an already
    rounded mantissa, then the overflow test. *)
Definition round_finish (s : bool) (m : Z) (e : Z) : spec_float :=
  let '(mrs, e') := shr_fexp prec emax m e loc_Exact in
  match shr_m mrs with
  | 0 => S754_zero s
  | Z.pos m => if e' <=? emax - prec then S754_finite s m e' else S754_infinity s
  | Z.neg _ => S754_nan
  end.

(** [m * 2^52], as the binary numeral [m] followed by 52 zero bits. *)
Definition shl52 (m : positive) : positive := Eval cbv in Pos.iter xO m 52.

(** ** Example tables *)

(** Three month ends of 2019. *)
Definition sample_rows : list row :=
  [ mkrow 0 (mkdate 2019 1 31) 100 100 60;
    mkrow 1 (mkdate 2019 2 28) 101 96 71;
    mkrow 2 (mkdate 2019 3 31) 102 104 72 ]%float.

Definition sample : DataFrame := mkframe sample_rows [].

(** The same months with a US CPI of zero in February. *)
Definition sample_zero_rows : list row :=
  [ mkrow 0 (mkdate 2019 1 31) 100 100 60;
    mkrow 1 (mkdate 2019 2 28) 0 96 71;
    mkrow 2 (mkdate 2019 3 31) 102 104 72 ]%float.

Definition sample_zero : DataFrame := mkframe sample_zero_rows [].

(** Two months in which India's CPI starts below the US CPI. *)
Definition sample_drift : DataFrame :=
  mkframe [ mkrow 0 (mkdate 2019 1 31) 100 96 60;
            mkrow 1 (mkdate 2019 2 28) 101 97 61 ]%float [].

(** A heap on which the script can run: [df], at reference 1, is [sample]. *)
Definition sample_heap : gmap loc DataFrame := {[ 1%positive := sample ]}.

(** Fourteen monthly records, US CPI 100, 101, ..., 113. *)
Definition monthly_rows : list row :=
  List.map (fun k => mkrow (Z.of_nat k)
                           (mkdate (2019 + Z.of_nat k / 12) (Z.of_nat k mod 12 + 1) 28)
                           (of_uint63 (Uint63.of_Z (100 + Z.of_nat k)))
                           (of_uint63 (Uint63.of_Z (100 + 2 * Z.of_nat k)))
                           70%float)
           (seq 0 14).

Definition monthly : DataFrame := mkframe monthly_rows [].

(** The same table with the US CPI of record 1 missing. *)
Definition monthly_gap_rows : list row :=
  List.map (fun r => if (label r =? 1)%Z
                     then mkrow (label r) (Date r) nan (India_CPI r)
                                (Exchange_Rate_INR_USD r)
                     else r)
           monthly_rows.

Definition monthly_gap : DataFrame := mkframe monthly_gap_rows [].

(** [last_valid s k v]: [v] is what position [k] of [s] holds once missing
    cells are read from the last record before them that has a value: the
    value of the last position at or before [k] that is not NaN, and NaN
    when there is none. *)
Definition last_valid (s : Series) (k : nat) (v : float) : Prop :=
  (k < length s)%nat
  /\ ((exists j, (j <= k)%nat /\ nth_error s j = Some v /\ is_nan v = false
                 /\ forall m x, (j < m <= k)%nat -> nth_error s m = Some x ->
                                is_nan x = true)
      \/ (v = nan
          /\ forall m x, (m <= k)%nat -> nth_error s m = Some x -> is_nan x = true)).

(** ** The sample table (lines 28-52)

    [pd.date_range(start, end, freq='M')] lists the month ends from the one
    of [start]'s month up to [end].  The three calls of
    [np.random.uniform] inside the list comprehensions are the draws
    [rnd_us], [rnd_india] and [rnd_fx], one per record. *)







(** ** The table shown and downloaded (lines 362-367)

    With the box ticked the view is [df_filtered] itself; otherwise it is
    [df_filtered[['Date', 'US_CPI', 'India_CPI', 'Exchange_Rate_INR_USD']]],
    the same records with the four loaded columns only. *)
Definition display_df (show_all : bool) (df_filtered : DataFrame) : DataFrame :=
  if show_all then df_filtered else mkframe (rows df_filtered) [].

(** ** More vocabulary *)

(** Every added column has one cell per record. *)
Definition aligned (d : DataFrame) : Prop :=
  Forall (fun kv => length (snd kv) = length (rows d)) (added d).

(** The names of the seven derived columns, in the order of assignment. *)
Definition derived_names : list string :=
  [ "US_Inflation_YoY"; "India_Inflation_YoY"; "US_CPI_Normalized";
    "India_CPI_Normalized"; "Exchange_Rate_Normalized"; "PPP_Implied";
    "PPP_Deviation" ].

(** * Properties *)

(** ** Positional indexing *)

Lemma last_cons {A} (l : list A) (x y : A) : List.last (y :: l) x = List.last l y.
Proof.
  revert x y. induction l as [|a l IH]; intros x y; [reflexivity|].
  change (List.last (y :: a :: l) x) with (List.last (a :: l) x).
  now rewrite (IH x a), (IH y a).
Qed.

Section Iloc.

Context {A : Type} (f : A -> float).

Lemma iloc_first (x : A) (l : list A) : iloc (List.map f (x :: l)) 0 = Ok (f x).
Proof.
  unfold iloc. cbn [List.map length].
  replace (0 <? 0) with false by reflexivity.
  replace ((0 <=? 0) && (0 <? Z.of_nat (S (length (List.map f l))))) with true
    by (symmetry; apply andb_true_iff; split; [reflexivity | apply Z.ltb_lt; lia]).
  reflexivity.
Qed.

Lemma iloc_last (x : A) (l : list A) :
  iloc (List.map f (x :: l)) (-1) = Ok (f (List.last l x)).
Proof.
  unfold iloc. set (s := List.map f (x :: l)).
  assert (Hlen : length s = S (length l)) by (unfold s; cbn; now rewrite length_map).
  replace (-1 <? 0) with true by reflexivity. rewrite Hlen.
  replace ((0 <=? -1 + Z.of_nat (S (length l))) && (-1 + Z.of_nat (S (length l)) <? Z.of_nat (S (length l))))
    with true by (symmetry; apply andb_true_iff; split; [apply Z.leb_le | apply Z.ltb_lt]; lia).
  replace (Z.to_nat (-1 + Z.of_nat (S (length l)))) with (length l) by lia.
  unfold s. clear s Hlen. revert x. induction l as [|y l IH]; intros x.
  - reflexivity.
  - cbn [length List.map nth_error]. specialize (IH y). cbn [List.map] in IH.
    destruct (nth_error (f y :: List.map f l) (length l)) as [v|] eqn:E.
    + injection IH as ->. now rewrite last_cons.
    + discriminate IH.
Qed.

Lemma iloc_empty (i : Z) : iloc (List.map f []) i = Raise IndexError.
Proof.
  unfold iloc. cbn [List.map length].
  destruct ((0 <=? (if i <? 0 then i + Z.of_nat 0 else i))
            && ((if i <? 0 then i + Z.of_nat 0 else i) <? Z.of_nat 0)) eqn:E;
    [|reflexivity].
  apply andb_true_iff in E as [E1 E2]. apply Z.leb_le in E1. apply Z.ltb_lt in E2.
  destruct (i <? 0) eqn:Ei; [apply Z.ltb_lt in Ei | apply Z.ltb_ge in Ei]; lia.
Qed.

End Iloc.

(** ** Summary metrics *)

Lemma calculate_metrics_nonempty (df : DataFrame) (r0 : row) (rest : list row) :
  rows df = r0 :: rest ->
  let rl := List.last rest r0 in
  calculate_metrics df =
    Ok (percent_change (US_CPI r0) (US_CPI rl),
        percent_change (India_CPI r0) (India_CPI rl),
        percent_change (Exchange_Rate_INR_USD r0) (Exchange_Rate_INR_USD rl)).
Proof.
  intros Hrows rl. unfold calculate_metrics, getitem. cbn [String.eqb Ascii.eqb Bool.eqb rbind].
  rewrite Hrows. rewrite !iloc_first, !iloc_last. reflexivity.
Qed.

Lemma compute_summary_nonempty (df : DataFrame) (r0 : row) (rest : list row) :
  rows df = r0 :: rest ->
  let rl := List.last rest r0 in
  compute_summary df =
    Ok (mksummary
          (percent_change (US_CPI r0) (US_CPI rl))
          (percent_change (India_CPI r0) (India_CPI rl))
          (percent_change (Exchange_Rate_INR_USD r0) (Exchange_Rate_INR_USD rl))
          (percent_change (India_CPI r0) (India_CPI rl)
           - percent_change (US_CPI r0) (US_CPI rl))%float).
Proof.
  intros Hrows rl. unfold compute_summary.
  now rewrite (calculate_metrics_nonempty df r0 rest Hrows).
Qed.

(** C1. On a filtered table with at least one record, the summary holds for
    each of US_CPI, India_CPI and Exchange_Rate_INR_USD the percent change
    [(last / first - 1) * 100] from the first record to the last, and the
    inflation differential is the India figure minus the US figure. *)
Theorem compute_summary_cumulative_changes
    (df : DataFrame) (r0 : row) (rest : list row) :
  rows df = r0 :: rest ->
  let rl := List.last rest r0 in
  exists m,
    compute_summary df = Ok m
    /\ us_inf m = ((US_CPI rl / US_CPI r0 - 1) * 100)%float
    /\ india_inf m = ((India_CPI rl / India_CPI r0 - 1) * 100)%float
    /\ fx_change m
       = ((Exchange_Rate_INR_USD rl / Exchange_Rate_INR_USD r0 - 1) * 100)%float
    /\ inflation_diff m = (india_inf m - us_inf m)%float.
Proof.
  intros Hrows rl. rewrite (compute_summary_nonempty df r0 rest Hrows).
  eexists. split; [reflexivity|]. repeat split; reflexivity.
Qed.

Lemma compute_summary_sample :
  rows sample = mkrow 0 (mkdate 2019 1 31) 100 100 60 :: List.tl sample_rows
  /\ exists m,
       compute_summary sample = Ok m
       /\ us_inf m = ((102 / 100 - 1) * 100)%float
       /\ india_inf m = ((104 / 100 - 1) * 100)%float
       /\ fx_change m = ((72 / 60 - 1) * 100)%float
       /\ inflation_diff m = (india_inf m - us_inf m)%float.
Proof.
  split; [reflexivity|].
  exact (compute_summary_cumulative_changes sample _ _ eq_refl).
Defined.

(** ** Element-wise operations on the columns of one frame *)

Lemma szip_map {A} (op : float -> float -> float) (f g : A -> float) (l : list A) :
  szip op (List.map f l) (List.map g l) = List.map (fun r => op (f r) (g r)) l.
Proof. induction l as [|x l IH]; [reflexivity|]. cbn. now rewrite IH. Qed.

Lemma szip_nth_error (op : float -> float -> float) (a b : Series) (i : nat) :
  nth_error (szip op a b) i =
    match nth_error a i, nth_error b i with
    | Some x, Some y => Some (op x y)
    | _, _ => None
    end.
Proof.
  revert b i. induction a as [|x a IH]; intros [|y b] [|i]; cbn; try reflexivity.
  - now destruct (nth_error a i).
  - apply IH.
Qed.

Lemma getitem_US_CPI (df : DataFrame) :
  getitem df "US_CPI" = Ok (List.map US_CPI (rows df)).
Proof. reflexivity. Qed.

Lemma getitem_India_CPI (df : DataFrame) :
  getitem df "India_CPI" = Ok (List.map India_CPI (rows df)).
Proof. reflexivity. Qed.

Lemma getitem_Exchange_Rate (df : DataFrame) :
  getitem df "Exchange_Rate_INR_USD" = Ok (List.map Exchange_Rate_INR_USD (rows df)).
Proof. reflexivity. Qed.

(** On a series with a first element the normalisation returns, whatever
    the values are. *)
Lemma normalize_nonempty (df : DataFrame) (col : string) (x : float) (s : Series) :
  getitem df col = Ok (x :: s) ->
  normalize df col = Ok (List.map (fun v => (v / x * 100)%float) (x :: s)).
Proof.
  intros Hget. unfold normalize. rewrite Hget. cbn [rbind].
  change (iloc (x :: s) 0) with (iloc (List.map (fun v : float => v) (x :: s)) 0).
  rewrite iloc_first. cbn [rbind]. unfold smul_scalar, sdiv_scalar.
  now rewrite List.map_map.
Qed.

Lemma normalize_empty (df : DataFrame) (col : string) :
  getitem df col = Ok [] -> normalize df col = Raise IndexError.
Proof.
  intros Hget. unfold normalize. rewrite Hget. cbn [rbind].
  change (iloc [] 0) with (iloc (List.map (fun v : float => v) []) 0).
  now rewrite iloc_empty.
Qed.

(** The same for the PPP implied rate: with a first record it returns the
    series of the formula of line 282. *)
Lemma ppp_implied_nonempty (df : DataFrame) (r0 : row) (rest : list row) :
  rows df = r0 :: rest ->
  ppp_implied df =
    Ok (List.map (fun r => (Exchange_Rate_INR_USD r0 * (India_CPI r / US_CPI r)
                            / (India_CPI r0 / US_CPI r0))%float)
                 (rows df)).
Proof.
  intros Hrows. unfold ppp_implied.
  rewrite getitem_US_CPI, getitem_India_CPI, getitem_Exchange_Rate. cbn [rbind].
  rewrite Hrows, !iloc_first. cbn [rbind]. rewrite <- Hrows.
  unfold sdiv_scalar, scalar_smul, sdiv. rewrite szip_map, !List.map_map. reflexivity.
Qed.

Lemma ppp_implied_empty (df : DataFrame) :
  rows df = [] -> ppp_implied df = Raise IndexError.
Proof.
  intros Hrows. unfold ppp_implied. rewrite getitem_Exchange_Rate. cbn [rbind].
  now rewrite Hrows, iloc_empty.
Qed.

Lemma calculate_metrics_empty (df : DataFrame) :
  rows df = [] -> calculate_metrics df = Raise IndexError.
Proof.
  intros Hrows. unfold calculate_metrics. rewrite getitem_US_CPI. cbn [rbind].
  now rewrite Hrows, iloc_empty.
Qed.

(** ** The date-range filter *)

Lemma date_le_trans (a b c : date) : date_le a b -> date_le b c -> date_le a c.
Proof.
  unfold date_le, date_leb. destruct a as [ya ma da], b as [yb mb db], c as [yc mc dc].
  cbn [year month day].
  rewrite !orb_true_iff, !andb_true_iff, !orb_true_iff, !andb_true_iff,
    !Z.ltb_lt, !Z.eqb_eq, !Z.leb_le.
  lia.
Qed.

Lemma in_range_iff (s e : date) (r : row) :
  in_range s e r = true <-> date_le s (Date r) /\ date_le (Date r) e.
Proof. unfold in_range, date_geb, date_le. apply andb_true_iff. Qed.

Lemma select_map_filter {A} (p : A -> bool) (l : list A) :
  select (List.map p l) l = List.filter p l.
Proof.
  induction l as [|x l IH]; [reflexivity|]. cbn. rewrite IH. reflexivity.
Qed.

Lemma rows_filter_range (df : DataFrame) (s e : date) :
  rows (filter_range df s e) = List.filter (in_range s e) (rows df).
Proof. unfold filter_range, copy, getitem_mask, date_mask. cbn. apply select_map_filter. Qed.

Lemma filter_all_true {A} (p : A -> bool) (l : list A) :
  List.map p (List.filter p l) = repeat true (length (List.filter p l)).
Proof.
  induction l as [|x l IH]; [reflexivity|]. cbn.
  destruct (p x) eqn:E; [cbn; now rewrite E, IH | exact IH].
Qed.

Lemma select_length_le {A B} (p : A -> bool) (l : list A) (c : list B) :
  (length (select (List.map p l) c) <= length (List.filter p l))%nat.
Proof.
  revert c. induction l as [|x l IH]; intros [|y c]; cbn; try lia.
  destruct (p x); cbn; [apply le_n_S|]; apply IH.
Qed.

Lemma select_repeat_true {A} (n : nat) (c : list A) :
  (length c <= n)%nat -> select (repeat true n) c = c.
Proof.
  revert c. induction n as [|n IH]; intros [|y c] Hlen; cbn in *; try reflexivity; try lia.
  rewrite IH; [reflexivity | lia].
Qed.

(** C7. Filtering a table to a date range and filtering the result again to
    the same range gives the same frame as filtering once; this holds for
    all bounds, so in particular for every pair with [s <= e]. *)
Theorem filter_range_idempotent (raw : DataFrame) (s e : date) :
  filter_range (filter_range raw s e) s e = filter_range raw s e.
Proof.
  assert (Hrows : rows (filter_range (filter_range raw s e) s e)
                  = rows (filter_range raw s e)).
  { rewrite (rows_filter_range (filter_range raw s e)), rows_filter_range.
    rewrite <- select_map_filter, filter_all_true.
    now apply select_repeat_true. }
  assert (Hadded : added (filter_range (filter_range raw s e) s e)
                   = added (filter_range raw s e)).
  { unfold filter_range at 1. unfold copy, getitem_mask, date_mask. cbn [added].
    fold (in_range s e). rewrite rows_filter_range, filter_all_true.
    unfold filter_range, copy, getitem_mask, date_mask. cbn [added].
    fold (in_range s e). rewrite List.map_map.
    apply List.map_ext. intros [k c]. cbn [fst snd].
    f_equal. apply select_repeat_true, select_length_le. }
  destruct (filter_range (filter_range raw s e) s e), (filter_range raw s e).
  cbn in Hrows, Hadded. now subst.
Qed.

(** *** Contiguity on a table sorted by date *)

Section Contiguous.

Variables start_date end_date : date.

Let keep : row -> bool := in_range start_date end_date.
Let by_date (a b : row) : Prop := date_le (Date a) (Date b).

(** Past the upper bound nothing is kept any more. *)
Lemma after_end_none (r : row) (l : list row) :
  date_leb (Date r) end_date = false ->
  Forall (by_date r) l ->
  Forall (fun x => keep x = false) l.
Proof.
  intros Hr Hall. eapply List.Forall_impl; [|exact Hall].
  intros x Hrx. unfold keep, in_range.
  destruct (date_leb (Date x) end_date) eqn:Hx; [|apply andb_false_r].
  rewrite (date_le_trans _ _ _ Hrx Hx) in Hr. discriminate.
Qed.

(** From the first record on or after the lower bound, the kept records are
    a prefix. *)
Lemma kept_prefix (l : list row) :
  StronglySorted by_date l ->
  Forall (fun x => date_le start_date (Date x)) l ->
  exists after,
    l = List.filter keep l ++ after /\ Forall (fun x => keep x = false) after.
Proof.
  induction 1 as [|r l Hsorted IH Hr]; intros Hlow.
  - exists []. split; [reflexivity | constructor].
  - inversion Hlow as [|? ? Hr_low Hl_low]; subst.
    cbn [List.filter]. unfold keep at 1, in_range, date_geb.
    rewrite Hr_low. cbn [andb].
    destruct (date_leb (Date r) end_date) eqn:Hr_end.
    + destruct (IH Hl_low) as (after & Heq & Hafter).
      exists after. split; [|exact Hafter].
      cbn [app]. f_equal. exact Heq.
    + pose proof (after_end_none r l Hr_end Hr) as Hnone.
      exists (r :: l). split.
      * replace (List.filter keep l) with (@nil row); [reflexivity|].
        symmetry. clear -Hnone. induction Hnone as [|x l Hx _ IHl]; [reflexivity|].
        cbn. now rewrite Hx.
      * constructor; [|exact Hnone].
        unfold keep, in_range. rewrite Hr_end. apply andb_false_r.
Qed.

Lemma kept_contiguous (l : list row) :
  StronglySorted by_date l ->
  exists before after,
    l = before ++ List.filter keep l ++ after
    /\ Forall (fun x => keep x = false) before
    /\ Forall (fun x => keep x = false) after.
Proof.
  induction 1 as [|r l Hsorted IH Hr].
  - exists [], []. repeat split; constructor.
  - destruct (date_leb start_date (Date r)) eqn:Hr_low.
    + destruct (kept_prefix (r :: l)) as (after & Heq & Hafter).
      * now constructor.
      * constructor; [exact Hr_low|].
        eapply List.Forall_impl; [|exact Hr]. intros x Hrx.
        exact (date_le_trans _ _ _ Hr_low Hrx).
      * exists [], after. repeat split; [exact Heq | constructor | exact Hafter].
    + destruct IH as (before & after & Heq & Hbefore & Hafter).
      assert (Hkeep : keep r = false)
        by (unfold keep, in_range, date_geb; now rewrite Hr_low).
      exists (r :: before), after. repeat split.
      * cbn [List.filter]. rewrite Hkeep. cbn [app]. f_equal. exact Heq.
      * now constructor.
      * exact Hafter.
Qed.

End Contiguous.

(** C8. On a table sorted ascending by date the filter keeps exactly the
    records with [start_date <= date <= end_date], both bounds included;
    they form one contiguous run of the table, in the table's order, with
    only out-of-range records before and after it; and when no record is in
    range the result is empty. *)
Theorem filter_range_inclusive_contiguous
    (raw : DataFrame) (start_date end_date : date) :
  sorted_by_date raw ->
  let kept := rows (filter_range raw start_date end_date) in
  (forall r, In r kept <->
             In r (rows raw) /\ date_le start_date (Date r) /\ date_le (Date r) end_date)
  /\ (exists before after,
        rows raw = before ++ kept ++ after
        /\ Forall (fun r => in_range start_date end_date r = false) before
        /\ Forall (fun r => in_range start_date end_date r = false) after)
  /\ ((forall r, In r (rows raw) -> in_range start_date end_date r = false) ->
      kept = []).
Proof.
  intros Hsorted kept. unfold kept. rewrite rows_filter_range.
  split; [|split].
  - intros r. rewrite List.filter_In, in_range_iff. reflexivity.
  - apply kept_contiguous. apply Sorted_StronglySorted; [|exact Hsorted].
    intros a b c. apply date_le_trans.
  - intros Hnone. induction (rows raw) as [|x l IH]; [reflexivity|].
    cbn. rewrite (Hnone x (or_introl eq_refl)). apply IH.
    intros r Hr. apply Hnone. now right.
Qed.

Lemma filter_range_sample :
  sorted_by_date sample
  /\ let kept := rows (filter_range sample (mkdate 2019 2 1) (mkdate 2019 2 28)) in
     (forall r, In r kept <->
                In r (rows sample)
                /\ date_le (mkdate 2019 2 1) (Date r) /\ date_le (Date r) (mkdate 2019 2 28))
     /\ (exists before after,
           rows sample = before ++ kept ++ after
           /\ Forall (fun r => in_range (mkdate 2019 2 1) (mkdate 2019 2 28) r = false) before
           /\ Forall (fun r => in_range (mkdate 2019 2 1) (mkdate 2019 2 28) r = false) after)
     /\ ((forall r, In r (rows sample) ->
                    in_range (mkdate 2019 2 1) (mkdate 2019 2 28) r = false) ->
         kept = []).
Proof.
  assert (Hs : sorted_by_date sample).
  { unfold sorted_by_date, sample, sample_rows. cbn [rows].
    repeat constructor. }
  split; [exact Hs|].
  exact (filter_range_inclusive_contiguous sample _ _ Hs).
Defined.

(** ** Binary64 facts

    What the proofs below need of IEEE 754 arithmetic, derived from the
    specification of the primitive operations ([mul_spec], [div_spec], ...). *)

Module Binary64.

(** *** Classification *)

Lemma SFcompare_finite_refl (s : bool) (m : positive) (e : Z) :
  SFcompare (S754_finite s m e) (S754_finite s m e) = Some Eq.
Proof.
  cbn [SFcompare]. rewrite Z.compare_refl.
  assert (Pos.compare_cont Eq m m = Eq) as -> by apply Pos.compare_cont_refl.
  now destruct s.
Qed.

Lemma is_nan_SF (x : float) :
  is_nan x = match Prim2SF x with S754_nan => true | _ => false end.
Proof.
  unfold is_nan. rewrite FloatAxioms.eqb_spec. unfold SFeqb.
  destruct (Prim2SF x) as [s|s| |s m e].
  - reflexivity.
  - now destruct s.
  - reflexivity.
  - now rewrite SFcompare_finite_refl.
Qed.

Lemma is_infinity_SF (x : float) :
  is_infinity x = match Prim2SF x with S754_infinity _ => true | _ => false end.
Proof.
  unfold is_infinity. rewrite FloatAxioms.eqb_spec, abs_spec. unfold SFeqb.
  change (Prim2SF infinity) with (S754_infinity false).
  now destruct (Prim2SF x) as [s|s| |s m e].
Qed.

Lemma is_zero_SF (x : float) :
  is_zero x = match Prim2SF x with S754_zero _ => true | _ => false end.
Proof.
  unfold is_zero. rewrite FloatAxioms.eqb_spec. unfold SFeqb.
  change (Prim2SF zero) with (S754_zero false).
  destruct (Prim2SF x) as [s|s| |s m e]; try reflexivity; now destruct s.
Qed.

Lemma finite_nonzero_SF (x : float) :
  finite_nonzero x = match Prim2SF x with S754_finite _ _ _ => true | _ => false end.
Proof.
  unfold finite_nonzero, is_finite. rewrite is_nan_SF, is_infinity_SF, is_zero_SF.
  now destruct (Prim2SF x).
Qed.

Lemma not_finite_SF (x : float) :
  not_finite x =
    match Prim2SF x with S754_nan | S754_infinity _ => true | _ => false end.
Proof.
  unfold not_finite. rewrite is_nan_SF, is_infinity_SF. now destruct (Prim2SF x).
Qed.

(** *** Infinities and NaNs: where they arise and how they spread *)

Lemma div_zero_not_finite (x z : float) :
  is_zero z = true -> not_finite (x / z) = true.
Proof.
  rewrite is_zero_SF, not_finite_SF, div_spec.
  destruct (Prim2SF z); try discriminate. intros _. now destruct (Prim2SF x).
Qed.

Lemma div_nan_not_finite (x z : float) :
  is_nan z = true -> not_finite (x / z) = true.
Proof.
  rewrite is_nan_SF, not_finite_SF, div_spec.
  destruct (Prim2SF z); try discriminate. intros _. now destruct (Prim2SF x).
Qed.

Lemma zero_div_zero_or_nan (z a : float) :
  is_zero z = true -> is_zero (z / a) || is_nan (z / a) = true.
Proof.
  rewrite !is_zero_SF, is_nan_SF, div_spec.
  destruct (Prim2SF z); try discriminate. intros _. now destruct (Prim2SF a).
Qed.

Lemma mul_not_finite_r (x y : float) :
  not_finite y = true -> not_finite (x * y) = true.
Proof.
  rewrite !not_finite_SF, mul_spec.
  destruct (Prim2SF y); try discriminate; intros _; now destruct (Prim2SF x).
Qed.

Lemma mul_not_finite_l (x y : float) :
  not_finite x = true -> not_finite (x * y) = true.
Proof.
  rewrite !not_finite_SF, mul_spec.
  destruct (Prim2SF x); try discriminate; intros _; now destruct (Prim2SF y).
Qed.

Lemma div_not_finite_l (x y : float) :
  not_finite x = true -> not_finite (x / y) = true.
Proof.
  rewrite !not_finite_SF, div_spec.
  destruct (Prim2SF x); try discriminate; intros _; now destruct (Prim2SF y).
Qed.

Lemma div_nan_r (x : float) : (x / nan)%float = nan.
Proof.
  apply Prim2SF_inj. rewrite div_spec. change (Prim2SF nan) with S754_nan.
  now destruct (Prim2SF x).
Qed.

(** *** Exact quotients and products *)

Lemma div_eucl_mul (a b : Z) : 0 < b -> Z.div_eucl (a * b) b = (a, 0).
Proof.
  intros Hb.
  pose proof (Z.div_mul a b ltac:(lia)) as Hd.
  pose proof (Z.mod_mul a b ltac:(lia)) as Hm.
  unfold Z.modulo, Z.div in Hd, Hm.
  destruct (Z.div_eucl (a * b) b) as [q r]. cbn in *. congruence.
Qed.

Lemma new_location_exact (n : Z) : new_location n 0 = loc_Exact.
Proof. unfold new_location. now destruct (Z.even n). Qed.

Lemma canonical_exp (m : positive) (e : Z) :
  SpecFloat.bounded prec emax m e = true ->
  fexp prec emax (Z.pos (digits2_pos m) + e) = e /\ e <= emax - prec.
Proof.
  unfold SpecFloat.bounded, canonical_mantissa.
  rewrite andb_true_iff, Z.eqb_eq, Z.leb_le. tauto.
Qed.

Lemma round_finish_canonical (s : bool) (m : positive) (e : Z) :
  SpecFloat.bounded prec emax m e = true -> round_finish s (Z.pos m) e = S754_finite s m e.
Proof.
  intros Hb. destruct (canonical_exp m e Hb) as [Hc He].
  unfold round_finish, shr_fexp. cbn [Zdigits2 shr_record_of_loc].
  rewrite Hc, Z.sub_diag. cbn [shr shr_m].
  apply Z.leb_le in He. now rewrite He.
Qed.

(** Rounding a mantissa that is already in canonical form changes nothing. *)
Lemma round_canonical (s : bool) (m : positive) (e : Z) :
  SpecFloat.bounded prec emax m e = true ->
  binary_round_aux prec emax s (Z.pos m) e loc_Exact = S754_finite s m e.
Proof.
  intros Hb. destruct (canonical_exp m e Hb) as [Hc He].
  unfold binary_round_aux, shr_fexp at 1. cbn [Zdigits2 shr_record_of_loc].
  rewrite Hc, Z.sub_diag. cbn [shr shr_m loc_of_shr_record round_nearest_even].
  exact (round_finish_canonical s m e Hb).
Qed.

(** Nor does rounding the same value written with one more bit ... *)
Lemma round_canonical_shl1 (s : bool) (m : positive) (e : Z) :
  SpecFloat.bounded prec emax m e = true ->
  binary_round_aux prec emax s (Z.pos m~0) (e - 1) loc_Exact = S754_finite s m e.
Proof.
  intros Hb. destruct (canonical_exp m e Hb) as [Hc He].
  unfold binary_round_aux, shr_fexp at 1.
  cbn [Zdigits2 shr_record_of_loc digits2_pos].
  replace (Z.pos (Pos.succ (digits2_pos m)) + (e - 1))
    with (Z.pos (digits2_pos m) + e) by lia.
  rewrite Hc. replace (e - (e - 1)) with 1 by lia.
  cbn [shr SpecFloat.iter_pos shr_1 orb shr_m loc_of_shr_record round_nearest_even].
  replace (e - 1 + 1) with e by lia.
  exact (round_finish_canonical s m e Hb).
Qed.

(** ... or with 52 more bits. *)
Lemma round_canonical_shl52 (s : bool) (m : positive) (e : Z) :
  SpecFloat.bounded prec emax m e = true ->
  binary_round_aux prec emax s (Z.pos (shl52 m)) (e + -52) loc_Exact
  = S754_finite s m e.
Proof.
  intros Hb. destruct (canonical_exp m e Hb) as [Hc He].
  unfold binary_round_aux, shr_fexp at 1. cbn [Zdigits2 shr_record_of_loc].
  assert (Hd : Z.pos (digits2_pos (shl52 m)) = Z.pos (digits2_pos m) + 52)
    by (unfold shl52; cbn [digits2_pos]; lia).
  rewrite Hd.
  replace (Z.pos (digits2_pos m) + 52 + (e + -52))
    with (Z.pos (digits2_pos m) + e) by lia.
  rewrite Hc. replace (e - (e + -52)) with 52 by lia.
  unfold shl52.
  cbn [shr SpecFloat.iter_pos shr_1 orb shr_m loc_of_shr_record round_nearest_even].
  replace (e + -52 + 52) with e by lia.
  exact (round_finish_canonical s m e Hb).
Qed.

Lemma SFdiv_self (s : bool) (m : positive) (e : Z) :
  SF64div (S754_finite s m e) (S754_finite s m e) = Prim2SF 1.
Proof.
  unfold SF64div, SFdiv, SFdiv_core_binary.
  replace (Zdigits2 (Z.pos m) + e - (Zdigits2 (Z.pos m) + e)) with 0 by lia.
  replace (e - e) with 0 by lia.
  change (Z.min (fexp prec emax 0) 0) with (-53).
  change (0 - -53) with 53. cbv iota.
  rewrite Z.shiftl_mul_pow2 by lia. rewrite Z.mul_comm.
  rewrite div_eucl_mul by lia.
  cbv iota beta. rewrite new_location_exact, xorb_nilpotent. now vm_compute.
Qed.

(** A finite nonzero value divided by itself is exactly 1. *)
Lemma div_self (x : float) : finite_nonzero x = true -> (x / x)%float = 1%float.
Proof.
  rewrite finite_nonzero_SF. intros Hx. apply Prim2SF_inj. rewrite div_spec.
  destruct (Prim2SF x); try discriminate. apply SFdiv_self.
Qed.

Lemma SFmul_one (x : spec_float) :
  valid_binary x = true -> SF64mul x (Prim2SF 1) = x.
Proof.
  change (Prim2SF 1) with (S754_finite false 4503599627370496 (-52)).
  destruct x as [s|s| |s m e];
    cbn [SF64mul SFmul FloatAxioms.valid_binary SpecFloat.valid_binary];
    intros Hb; rewrite ?xorb_false_r; try reflexivity.
  replace (m * 4503599627370496)%positive with (shl52 m)
    by (now rewrite Pos.mul_comm).
  now apply round_canonical_shl52.
Qed.

(** Multiplying by 1 is exact for every value, also the special ones. *)
Lemma mul_one_r (x : float) : (x * 1)%float = x.
Proof. apply Prim2SF_inj. rewrite mul_spec. apply SFmul_one, Prim2SF_valid. Qed.

Lemma SFdiv_core_one (m : positive) (e : Z) :
  SpecFloat.bounded prec emax m e = true ->
  SFdiv_core_binary prec emax (Z.pos m) e 4503599627370496 (-52)
    = (Z.pos m, e, loc_Exact)
  \/ SFdiv_core_binary prec emax (Z.pos m) e 4503599627370496 (-52)
    = (Z.pos m~0, e - 1, loc_Exact).
Proof.
  intros Hb. destruct (canonical_exp m e Hb) as [Hc He].
  unfold SFdiv_core_binary. cbn [Zdigits2].
  change (Z.pos (digits2_pos 4503599627370496)) with 53.
  set (d := Z.pos (digits2_pos m)) in *.
  assert (fexp prec emax (d + e - (53 + -52)) = e
          \/ fexp prec emax (d + e - (53 + -52)) = e - 1) as [H|H]
    by (revert Hc; unfold fexp, emin, prec, emax; lia).
  - left. rewrite H. replace (Z.min e (e - -52)) with e by lia.
    replace (e - -52 - e) with 52 by lia. cbv iota.
    rewrite Z.shiftl_mul_pow2 by lia.
    change (2 ^ 52) with 4503599627370496.
    rewrite div_eucl_mul by lia. now rewrite new_location_exact.
  - right. rewrite H. replace (Z.min (e - 1) (e - -52)) with (e - 1) by lia.
    replace (e - -52 - (e - 1)) with 53 by lia. cbv iota.
    rewrite Z.shiftl_mul_pow2 by lia.
    change (2 ^ 53) with 9007199254740992.
    replace (Z.pos m * 9007199254740992) with (Z.pos m~0 * 4503599627370496) by lia.
    rewrite div_eucl_mul by lia. now rewrite new_location_exact.
Qed.

Lemma SFdiv_one (x : spec_float) :
  valid_binary x = true -> SF64div x (Prim2SF 1) = x.
Proof.
  change (Prim2SF 1) with (S754_finite false 4503599627370496 (-52)).
  destruct x as [s|s| |s m e];
    cbn [SF64div SFdiv FloatAxioms.valid_binary SpecFloat.valid_binary];
    intros Hb; rewrite ?xorb_false_r; try reflexivity.
  destruct (SFdiv_core_one m e Hb) as [-> | ->].
  - now apply round_canonical.
  - now apply round_canonical_shl1.
Qed.

(** Dividing by 1 is exact for every value, also the special ones. *)
Lemma div_one_r (x : float) : (x / 1)%float = x.
Proof. apply Prim2SF_inj. rewrite div_spec. apply SFdiv_one, Prim2SF_valid. Qed.

End Binary64.

(** ** Rounding to nearest

    Multiplication and division of binary64 values of ordinary magnitude
    return a value within a relative error of 2^-53 of the exact result.
    The proofs follow the specification of the operations: the mantissa is
    aligned by shifting bits out, the round and sticky bits record where the
    exact value lies, and rounding to nearest even picks the mantissa. *)

Module Rounding.

(** Shifting one bit out keeps the record in step with the value, one
    binade up. *)
Lemma shr_1_represents N D mrs :
  represents N D mrs -> represents N (2 * D) (shr_1 mrs).
Proof.
  destruct mrs as [m r s]. unfold represents. cbn [shr_m shr_r shr_s].
  intros (HD & Hm & Hfloor & Hloc).
  destruct m as [|p|p]; [| |lia].
  - cbn [shr_1 shr_m shr_r shr_s]. destruct r, s; cbn [orb]; lia.
  - destruct p as [p|p|]; cbn [shr_1 shr_m shr_r shr_s].
    + rewrite (Pos2Z.inj_xI p) in *. destruct r, s; cbn [orb]; nia.
    + rewrite (Pos2Z.inj_xO p) in *. destruct r, s; cbn [orb]; nia.
    + destruct r, s; cbn [orb]; lia.
Qed.

Lemma pow2_xO (p : positive) : 2 ^ Z.pos p~0 = 2 ^ Z.pos p * 2 ^ Z.pos p.
Proof. replace (Z.pos p~0) with (Z.pos p + Z.pos p) by lia. apply Z.pow_add_r; lia. Qed.

Lemma pow2_xI (p : positive) : 2 ^ Z.pos p~1 = 2 ^ Z.pos p * (2 ^ Z.pos p * 2).
Proof.
  replace (Z.pos p~1) with (Z.pos p + (Z.pos p + 1)) by lia.
  rewrite !Z.pow_add_r by lia. reflexivity.
Qed.

Lemma iter_shr_1_represents N (p : positive) :
  forall D mrs, represents N D mrs ->
    represents N (2 ^ Z.pos p * D) (SpecFloat.iter_pos shr_1 p mrs).
Proof.
  induction p as [p IH|p IH|]; intros D mrs H; cbn [SpecFloat.iter_pos].
  - apply shr_1_represents in H. apply IH, IH in H.
    rewrite pow2_xI.
    replace (2 ^ Z.pos p * (2 ^ Z.pos p * 2) * D)
      with (2 ^ Z.pos p * (2 ^ Z.pos p * (2 * D))) by ring.
    exact H.
  - apply IH, IH in H. rewrite pow2_xO.
    replace (2 ^ Z.pos p * 2 ^ Z.pos p * D)
      with (2 ^ Z.pos p * (2 ^ Z.pos p * D)) by ring.
    exact H.
  - apply shr_1_represents in H. exact H.
Qed.

Lemma represents_of_loc N D m l :
  represents N D (shr_record_of_loc m l) ->
  loc_of_shr_record (shr_record_of_loc m l) = l.
Proof. intros _. destruct l as [|[ | | ]]; reflexivity. Qed.

(** Rounding to nearest picks a mantissa at most half a unit away. *)
Lemma round_nearest_even_near N D mrs :
  represents N D mrs ->
  let m' := round_nearest_even (shr_m mrs) (loc_of_shr_record mrs) in
  shr_m mrs <= m' <= shr_m mrs + 1 /\ 2 * Z.abs (m' * D - N) <= D.
Proof.
  destruct mrs as [m r s]. unfold represents. cbn [shr_m shr_r shr_s].
  intros (HD & Hm & Hfloor & Hloc).
  destruct r, s; cbn [loc_of_shr_record round_nearest_even].
  - split; [lia|]. nia.
  - destruct (Z.even m); split; try lia; nia.
  - split; [lia|]. nia.
  - split; [lia|]. nia.
Qed.

Lemma digits2_pos_bounds (p : positive) :
  2 ^ (Z.pos (digits2_pos p) - 1) <= Z.pos p < 2 ^ Z.pos (digits2_pos p).
Proof.
  induction p as [p IH|p IH|]; cbn [digits2_pos]; [| |cbn; lia];
    rewrite Pos2Z.inj_succ;
    replace (Z.succ (Z.pos (digits2_pos p)) - 1)
      with (Z.succ (Z.pos (digits2_pos p) - 1)) by lia;
    rewrite !Z.pow_succ_r by lia;
    revert IH;
    generalize (2 ^ (Z.pos (digits2_pos p) - 1)) (2 ^ Z.pos (digits2_pos p));
    intros a b IH; lia.
Qed.

Lemma digits2_pos_unique (p : positive) (k : Z) :
  2 ^ (k - 1) <= Z.pos p < 2 ^ k -> Z.pos (digits2_pos p) = k.
Proof.
  intros [Hlo Hhi]. pose proof (digits2_pos_bounds p) as [Blo Bhi].
  set (d := Z.pos (digits2_pos p)) in *.
  assert (0 < k).
  { destruct (Z.ltb_spec 0 k); [assumption|].
    exfalso. destruct k; [cbn in Hhi; lia|lia|]. rewrite Z.pow_neg_r in Hhi by lia. lia. }
  destruct (Z.lt_trichotomy d k) as [Hlt|[Heq|Hgt]]; [|exact Heq|].
  - exfalso. assert (2 ^ d <= 2 ^ (k - 1)) by (apply Z.pow_le_mono_r; lia). lia.
  - exfalso. assert (2 ^ k <= 2 ^ (d - 1)) by (apply Z.pow_le_mono_r; lia). lia.
Qed.

(** Rounding a mantissa of at least 53 bits, in the normal range: the result
    is finite, has a 53-bit mantissa, and is within a relative error of
    2^-53 of the value [N/D * 2^ex] that the mantissa and its location stand
    for. *)
Lemma binary_round_aux_nearest (sx : bool) (mx : positive) (ex : Z) (lx : location)
    (N D : Z) :
  represents N D (shr_record_of_loc (Z.pos mx) lx) ->
  let d := Z.pos (digits2_pos mx) in
  53 <= d ->
  -1074 <= d + ex - 53 ->
  d + ex - 52 <= 971 ->
  exists m'' k,
    binary_round_aux prec emax sx (Z.pos mx) ex lx = S754_finite sx m'' (ex + k)
    /\ d - 53 <= k <= d - 52
    /\ 2 ^ 52 <= Z.pos m'' < 2 ^ 53
    /\ 2 ^ 53 * Z.abs (Z.pos m'' * 2 ^ k * D - N) <= Z.pos m'' * 2 ^ k * D.
Proof.
  intros Hrep d Hd Hlow Hhigh.
  pose proof (digits2_pos_bounds mx) as Hdig. fold d in Hdig.
  set (n := d - 53).
  assert (Hfexp : fexp prec emax (d + ex) - ex = n)
    by (unfold fexp, SpecFloat.emin, prec, emax, n; lia).
  (* first alignment *)
  assert (Hstage1 : exists mrs1,
            shr_fexp prec emax (Z.pos mx) ex lx = (mrs1, ex + n)
            /\ represents N (2 ^ n * D) mrs1).
  { unfold shr_fexp. cbn [Zdigits2]. fold d. rewrite Hfexp.
    destruct n as [|pn|pn] eqn:En; [| |lia].
    - exists (shr_record_of_loc (Z.pos mx) lx). split.
      + cbn [shr]. f_equal. lia.
      + now rewrite Z.pow_0_r, Z.mul_1_l.
    - exists (SpecFloat.iter_pos shr_1 pn (shr_record_of_loc (Z.pos mx) lx)).
      split; [reflexivity|]. now apply iter_shr_1_represents. }
  destruct Hstage1 as (mrs1 & Hshr1 & Hrep1).
  pose proof (round_nearest_even_near _ _ _ Hrep1) as Hnear. cbv zeta in Hnear.
  set (m' := round_nearest_even (shr_m mrs1) (loc_of_shr_record mrs1)) in *.
  destruct Hnear as [Hm' Herr].
  assert (HP : 0 < 2 ^ n) by (apply Z.pow_pos_nonneg; lia).
  set (P := 2 ^ n) in *.
  (* the aligned mantissa has 53 bits *)
  assert (Hm1 : 2 ^ 52 <= shr_m mrs1 < 2 ^ 53).
  { destruct Hrep1 as (HD1 & Hm1 & Hfloor1 & _).
    assert (HD : 0 < D) by (destruct Hrep as (HD & _); exact HD).
    assert (Hfloor : Z.pos mx * D <= N < (Z.pos mx + 1) * D).
    { destruct Hrep as (_ & _ & Hfloor & _).
      destruct lx as [|[ | | ]]; exact Hfloor. }
    assert (Hpow : 2 ^ d = 2 ^ 53 * P /\ 2 ^ (d - 1) = 2 ^ 52 * P).
    { unfold P. rewrite <- !Z.pow_add_r by lia. split; f_equal; lia. }
    destruct Hpow as [Hp1 Hp2]. rewrite Hp1, Hp2 in Hdig.
    set (m1 := shr_m mrs1) in *. set (M := Z.pos mx) in *.
    assert (m1 * P < M + 1) by nia.
    assert (M < (m1 + 1) * P) by nia.
    split; nia. }
  unfold binary_round_aux. rewrite Hshr1. fold m'.
  assert (Hm'pos : 2 ^ 52 <= m' <= 2 ^ 53) by lia.
  destruct m' as [|pm'|pm'] eqn:Em'; [cbn in Hm'pos; lia| |lia].
  destruct (Z.eq_dec (Z.pos pm') (2 ^ 53)) as [Htop|Hntop].
  - (* the mantissa was rounded up to 2^53: one more bit goes *)
    exists (4503599627370496%positive), (n + 1).
    assert (pm' = 9007199254740992%positive) as -> by (change (2 ^ 53) with 9007199254740992 in Htop; lia).
    unfold shr_fexp. cbn [Zdigits2 shr_record_of_loc].
    change (Z.pos (digits2_pos 9007199254740992)) with 54.
    replace (fexp prec emax (54 + (ex + n)) - (ex + n)) with 1
      by (unfold fexp, SpecFloat.emin, prec, emax; lia).
    cbn [shr SpecFloat.iter_pos shr_1 orb shr_m].
    replace (ex + n + 1 <=? emax - prec) with true
      by (symmetry; apply Z.leb_le; unfold emax, prec; lia).
    split; [f_equal; lia|]. split; [lia|]. split; [cbn; lia|].
    rewrite Z.pow_add_r by lia. fold P. change (2 ^ 1) with 2.
    change (2 ^ 53) with 9007199254740992 in *.
    replace (4503599627370496 * (P * 2) * D) with (9007199254740992 * (P * D)) by ring.
    replace (9007199254740992 * D * P) with (9007199254740992 * (P * D)) in Herr by ring.
    nia.
  - exists pm', n.
    assert (Hd' : Z.pos (digits2_pos pm') = 53)
      by (apply digits2_pos_unique; change (53 - 1) with 52; lia).
    unfold shr_fexp. cbn [Zdigits2 shr_record_of_loc]. rewrite Hd'.
    replace (fexp prec emax (53 + (ex + n)) - (ex + n)) with 0
      by (unfold fexp, SpecFloat.emin, prec, emax; lia).
    cbn [shr shr_m].
    replace (ex + n <=? emax - prec) with true
      by (symmetry; apply Z.leb_le; unfold emax, prec; lia).
    split; [reflexivity|]. split; [lia|]. split; [lia|].
    fold P. change (2 ^ 53) with 9007199254740992 in *. change (2 ^ 52) with 4503599627370496 in *.
    replace (Z.pos pm' * P * D) with (Z.pos pm' * (P * D)) by ring.
    assert (0 < P * D) by (destruct Hrep1 as (HD1 & _); exact HD1).
    nia.
Qed.

(** The location that the division computes from the remainder is the
    right one. *)
Lemma new_location_represents (q r D : Z) :
  0 <= q -> 0 <= r < D ->
  represents (q * D + r) D (shr_record_of_loc q (new_location D r)).
Proof.
  intros Hq Hr. unfold new_location, new_location_even, new_location_odd.
  assert (Hodd : Z.even D = false -> exists c, D = 2 * c + 1).
  { intros Heven. apply Z.odd_spec. now rewrite <- Z.negb_even, Heven. }
  destruct (Z.even D); [|destruct (Hodd eq_refl) as [c Hc]];
    (destruct (Z.eqb_spec r 0) as [->|Hr0];
     [|match goal with |- context [?a ?= ?b] => destruct (Z.compare_spec a b) end]);
    unfold represents; cbn [shr_record_of_loc shr_m shr_r shr_s]; nia.
Qed.

(** The product of two normal values, away from overflow and underflow. *)
Lemma SFmul_nearest (sx sy : bool) (mx my : positive) (ex ey : Z) :
  Z.pos (digits2_pos mx) = 53 -> Z.pos (digits2_pos my) = 53 ->
  -1126 <= ex + ey <= 917 ->
  exists m'' k,
    SF64mul (S754_finite sx mx ex) (S754_finite sy my ey)
      = S754_finite (xorb sx sy) m'' (ex + ey + k)
    /\ 52 <= k <= 54
    /\ 2 ^ 52 <= Z.pos m'' < 2 ^ 53
    /\ 2 ^ 53 * Z.abs (Z.pos m'' * 2 ^ k - Z.pos mx * Z.pos my)
       <= Z.pos m'' * 2 ^ k.
Proof.
  intros Hdx Hdy Hexp.
  pose proof (digits2_pos_bounds mx) as Bx. rewrite Hdx in Bx.
  pose proof (digits2_pos_bounds my) as By. rewrite Hdy in By.
  pose proof (digits2_pos_bounds (mx * my)) as Bxy.
  set (d := Z.pos (digits2_pos (mx * my))) in *.
  change (53 - 1) with 52 in *.
  assert (Hd : 105 <= d <= 106).
  { rewrite Pos2Z.inj_mul in Bxy.
    assert (2 ^ 104 <= Z.pos mx * Z.pos my < 2 ^ 106).
    { change (2 ^ 104) with (2 ^ 52 * 2 ^ 52). change (2 ^ 106) with (2 ^ 53 * 2 ^ 53).
      split.
      - apply Z.mul_le_mono_nonneg; lia.
      - apply Z.mul_lt_mono_nonneg; lia. }
    split.
    - destruct (Z.le_gt_cases 105 d); [assumption|]. exfalso.
      assert (2 ^ d <= 2 ^ 104) by (apply Z.pow_le_mono_r; lia). lia.
    - destruct (Z.le_gt_cases d 106); [assumption|]. exfalso.
      assert (2 ^ 106 <= 2 ^ (d - 1)) by (apply Z.pow_le_mono_r; lia). lia. }
  destruct (binary_round_aux_nearest (xorb sx sy) (mx * my) (ex + ey) loc_Exact
              (Z.pos mx * Z.pos my) 1) as (m'' & k & Hres & Hk & Hm & Herr).
  - unfold represents. cbn. lia.
  - fold d. lia.
  - fold d. lia.
  - fold d. lia.
  - fold d in Hk. exists m'', k. split; [exact Hres|]. split; [lia|]. split; [exact Hm|].
    now rewrite !Z.mul_1_r in Herr.
Qed.

(** The quotient of two normal values, away from overflow and underflow. *)
Lemma SFdiv_nearest (sx sy : bool) (mx my : positive) (ex ey : Z) :
  Z.pos (digits2_pos mx) = 53 -> Z.pos (digits2_pos my) = 53 ->
  -1021 <= ex - ey <= 970 ->
  exists m'' k,
    SF64div (S754_finite sx mx ex) (S754_finite sy my ey)
      = S754_finite (xorb sx sy) m'' (ex - ey - 53 + k)
    /\ 0 <= k <= 2
    /\ 2 ^ 52 <= Z.pos m'' < 2 ^ 53
    /\ 2 ^ 53 * Z.abs (Z.pos m'' * 2 ^ k * Z.pos my - Z.pos mx * 2 ^ 53)
       <= Z.pos m'' * 2 ^ k * Z.pos my.
Proof.
  intros Hdx Hdy Hexp.
  pose proof (digits2_pos_bounds mx) as Bx. rewrite Hdx in Bx.
  pose proof (digits2_pos_bounds my) as By. rewrite Hdy in By.
  change (53 - 1) with 52 in *.
  unfold SF64div, SFdiv, SFdiv_core_binary. cbn [Zdigits2]. rewrite Hdx, Hdy.
  replace (Z.min (fexp prec emax (53 + ex - (53 + ey))) (ex - ey)) with (ex - ey - 53)
    by (unfold fexp, SpecFloat.emin, prec, emax; lia).
  replace (ex - ey - (ex - ey - 53)) with 53 by lia. cbv iota.
  rewrite Z.shiftl_mul_pow2 by lia.
  pose proof (Z.div_eucl_eq (Z.pos mx * 2 ^ 53) (Z.pos my) ltac:(lia)) as Heucl.
  pose proof (Z.mod_pos_bound (Z.pos mx * 2 ^ 53) (Z.pos my) ltac:(lia)) as Hrem.
  unfold Z.modulo in Hrem.
  destruct (Z.div_eucl (Z.pos mx * 2 ^ 53) (Z.pos my)) as [q r].
  (* the quotient has 53 or 54 bits *)
  assert (Hq : 2 ^ 52 <= q < 2 ^ 54).
  { change (2 ^ 54) with (2 * 2 ^ 53). change (2 ^ 53) with (2 * 2 ^ 52) in *.
    revert Bx By Heucl Hrem. generalize (2 ^ 52) (Z.pos mx) (Z.pos my).
    intros a x y Bx By Heucl Hrem. split; nia. }
  destruct q as [|pq|pq]; [cbn in Hq; lia| |lia].
  pose proof (digits2_pos_bounds pq) as Bq.
  set (dq := Z.pos (digits2_pos pq)) in *.
  assert (Hdq : 53 <= dq <= 54).
  { split.
    - destruct (Z.le_gt_cases 53 dq); [assumption|]. exfalso.
      assert (2 ^ dq <= 2 ^ 52) by (apply Z.pow_le_mono_r; lia). lia.
    - destruct (Z.le_gt_cases dq 54); [assumption|]. exfalso.
      assert (2 ^ 54 <= 2 ^ (dq - 1)) by (apply Z.pow_le_mono_r; lia). lia. }
  destruct (binary_round_aux_nearest (xorb sx sy) pq (ex - ey - 53)
              (new_location (Z.pos my) r) (Z.pos mx * 2 ^ 53) (Z.pos my))
    as (m'' & k & Hres & Hk & Hm & Herr).
  - rewrite Heucl. rewrite (Z.mul_comm (Z.pos my)).
    apply new_location_represents; lia.
  - fold dq. lia.
  - fold dq. lia.
  - fold dq. lia.
  - fold dq in Hk. exists m'', k. split; [exact Hres|]. split; [lia|].
    split; [exact Hm|exact Herr].
Qed.

(** A value of ordinary magnitude is positive and normal. *)
Lemma ordinary_SF (x : float) :
  ordinary x = true ->
  exists m e, Prim2SF x = S754_finite false m e
              /\ Z.pos (digits2_pos m) = 53 /\ -352 <= e <= 248.
Proof.
  unfold ordinary. rewrite andb_true_iff, !leb_spec. unfold SFleb.
  pose proof (Prim2SF_valid x) as Hvalid.
  change (Prim2SF 0x1p-300) with (S754_finite false 4503599627370496 (-352)).
  change (Prim2SF 0x1p+300) with (S754_finite false 4503599627370496 248).
  destruct (Prim2SF x) as [s|s| |s m e]; cbn [SFcompare].
  - intros [H _]. discriminate H.
  - destruct s; intros [H1 H2]; discriminate.
  - intros [H _]. discriminate H.
  - destruct s; [intros [H _]; discriminate H|].
    intros [Hlo Hhi]. exists m, e. split; [reflexivity|].
    assert (He : -352 <= e <= 248).
    { split.
      - destruct (Z.compare_spec (-352) e); try lia; try discriminate Hlo.
      - destruct (Z.compare_spec e 248); try lia; try discriminate Hhi. }
    split; [|exact He].
    cbn [FloatAxioms.valid_binary SpecFloat.valid_binary] in Hvalid.
    unfold SpecFloat.bounded, canonical_mantissa in Hvalid.
    apply andb_true_iff in Hvalid as [Hc _]. apply Z.eqb_eq in Hc.
    revert Hc. unfold fexp, SpecFloat.emin, prec, emax. lia.
Qed.

Lemma digits_53 (m : positive) : 2 ^ 52 <= Z.pos m < 2 ^ 53 -> Z.pos (digits2_pos m) = 53.
Proof. intros H. apply digits2_pos_unique. exact H. Qed.

(** The three operations of the anchor, on ordinary positive values. *)
Lemma anchor_SF (x a b : float) :
  ordinary x = true -> ordinary a = true -> ordinary b = true ->
  exists mx ex mr er mp kp mq kq,
    Prim2SF x = S754_finite false mx ex
    /\ Prim2SF (b / a) = S754_finite false mr er
    /\ Prim2SF (x * (b / a) / (b / a)) = S754_finite false mq (ex + kp - 53 + kq)
    /\ 0 <= kp /\ 0 <= kq
    /\ 2 ^ 53 * Z.abs (Z.pos mp * 2 ^ kp - Z.pos mx * Z.pos mr) <= Z.pos mp * 2 ^ kp
    /\ 2 ^ 53 * Z.abs (Z.pos mq * 2 ^ kq * Z.pos mr - Z.pos mp * 2 ^ 53)
       <= Z.pos mq * 2 ^ kq * Z.pos mr.
Proof.
  intros Hx Ha Hb.
  destruct (ordinary_SF x Hx) as (mx & ex & Ex & Dx & Rx).
  destruct (ordinary_SF a Ha) as (ma & ea & Ea & Da & Ra).
  destruct (ordinary_SF b Hb) as (mb & eb & Eb & Db & Rb).
  destruct (SFdiv_nearest false false mb ma eb ea Db Da ltac:(lia))
    as (mr & kr & Er & Hkr & Hmr & _).
  cbn [xorb] in Er. rewrite <- Eb, <- Ea, <- div_spec in Er.
  set (er := eb - ea - 53 + kr) in *.
  destruct (SFmul_nearest false false mx mr ex er Dx (digits_53 mr Hmr) ltac:(unfold er; lia))
    as (mp & kp & Ep & Hkp & Hmp & Herr1).
  cbn [xorb] in Ep. rewrite <- Ex, <- Er, <- mul_spec in Ep.
  destruct (SFdiv_nearest false false mp mr (ex + er + kp) er (digits_53 mp Hmp)
              (digits_53 mr Hmr) ltac:(lia))
    as (mq & kq & Eq & Hkq & Hmq & Herr2).
  cbn [xorb] in Eq. rewrite <- Ep, <- Er, <- div_spec in Eq.
  exists mx, ex, mr, er, mp, kp, mq, kq.
  split; [exact Ex|]. split; [exact Er|]. split.
  - rewrite Eq. f_equal. lia.
  - repeat split; try lia; assumption.
Qed.

Section ErrorBounds.

Local Open Scope R_scope.

Lemma p2_pos (z : Z) : 0 < p2 z.
Proof. apply powerRZ_lt. lra. Qed.

Lemma p2_add (a b : Z) : p2 (a + b) = p2 a * p2 b.
Proof. apply powerRZ_add. lra. Qed.

Lemma IZR_pow2 (k : Z) : (0 <= k)%Z -> IZR (2 ^ k) = p2 k.
Proof.
  intros Hk. unfold p2. rewrite <- (Z2Nat.id k Hk) at 1.
  rewrite <- pow_IZR, pow_powerRZ. now rewrite Z2Nat.id.
Qed.

(** An integer relative error of 2^-53, read in the reals. *)
Lemma rel_err_R (A B : Z) :
  (2 ^ 53 * Z.abs (A - B) <= A)%Z ->
  - (/ 9007199254740992 * IZR A) <= IZR A - IZR B <= / 9007199254740992 * IZR A.
Proof.
  intros H. apply IZR_le in H.
  rewrite mult_IZR, abs_IZR, minus_IZR in H.
  change (IZR (2 ^ 53)) with 9007199254740992 in H.
  unfold Rabs in H. destruct (Rcase_abs (IZR A - IZR B)); lra.
Qed.

Lemma scale_rel_err (alpha beta T : R) :
  0 < T ->
  - (/ 9007199254740992 * alpha) <= alpha - beta <= / 9007199254740992 * alpha ->
  - (/ 9007199254740992 * (alpha * T)) <= alpha * T - beta * T
    <= / 9007199254740992 * (alpha * T).
Proof.
  intros HT [H1 H2].
  apply Rmult_le_compat_r with (r := T) in H1; [|lra].
  apply Rmult_le_compat_r with (r := T) in H2; [|lra].
  lra.
Qed.

(** Two roundings of relative error 2^-53 each leave a relative error of at
    most 2^-51. *)
Lemma two_roundings (W P Y : R) :
  0 < P ->
  - (/ 9007199254740992 * P) <= P - Y <= / 9007199254740992 * P ->
  - (/ 9007199254740992 * W) <= W - P <= / 9007199254740992 * W ->
  - (/ 2251799813685248 * Y) <= W - Y <= / 2251799813685248 * Y.
Proof. intros HP H1 H2. lra. Qed.

End ErrorBounds.

(** [x * r / r] with [r = b / a] is within 2^-51 of [x], relatively. *)
Lemma anchor_within_rounding (x a b : float) :
  ordinary x = true -> ordinary a = true -> ordinary b = true ->
  (Rabs (float_to_R (x * (b / a) / (b / a)) - float_to_R x)
   <= / 2251799813685248 * float_to_R x)%R.
Proof.
  intros Hx Ha Hb.
  destruct (anchor_SF x a b Hx Ha Hb)
    as (mx & ex & mr & er & mp & kp & mq & kq & Ex & Er & Eq & Hkp & Hkq & H1 & H2).
  unfold float_to_R. rewrite Eq, Ex.
  fold (p2 (ex + kp - 53 + kq)). fold (p2 ex).
  apply rel_err_R in H1, H2.
  rewrite !mult_IZR in H1. rewrite !mult_IZR in H2.
  rewrite !IZR_pow2 in H1 by lia. rewrite !IZR_pow2 in H2 by lia.
  set (X := (IZR (Z.pos mx) * p2 ex)%R).
  set (Rr := (IZR (Z.pos mr) * p2 er)%R).
  set (P := (IZR (Z.pos mp) * p2 (ex + er + kp))%R).
  set (Q := (IZR (Z.pos mq) * p2 (ex + kp - 53 + kq))%R).
  assert (HRr : (0 < Rr)%R).
  { unfold Rr. apply Rmult_lt_0_compat; [apply IZR_lt; lia | apply p2_pos]. }
  assert (HP : (0 < P)%R).
  { unfold P. apply Rmult_lt_0_compat; [apply IZR_lt; lia | apply p2_pos]. }
  (* first rounding: P against X * Rr *)
  apply (scale_rel_err _ _ (p2 (ex + er)) (p2_pos _)) in H1.
  replace (IZR (Z.pos mp) * p2 kp * p2 (ex + er))%R with P in H1
    by (unfold P; replace (ex + er + kp)%Z with (kp + (ex + er))%Z by lia;
        rewrite p2_add; ring).
  replace (IZR (Z.pos mx) * IZR (Z.pos mr) * p2 (ex + er))%R with (X * Rr)%R in H1
    by (unfold X, Rr; rewrite p2_add; ring).
  (* second rounding: Q * Rr against P *)
  apply (scale_rel_err _ _ (p2 (ex + er + kp - 53)) (p2_pos _)) in H2.
  replace (IZR (Z.pos mq) * p2 kq * IZR (Z.pos mr) * p2 (ex + er + kp - 53))%R
    with (Q * Rr)%R in H2
    by (unfold Q, Rr;
        replace (ex + er + kp - 53)%Z with ((ex + kp - 53) + er)%Z by lia;
        replace (ex + kp - 53 + kq)%Z with (kq + (ex + kp - 53))%Z by lia;
        rewrite !p2_add; ring).
  replace (IZR (Z.pos mp) * p2 53 * p2 (ex + er + kp - 53))%R with P in H2
    by (unfold P; replace (ex + er + kp)%Z with (53 + (ex + er + kp - 53))%Z at 1 by lia;
        rewrite p2_add; ring).
  pose proof (two_roundings (Q * Rr) P (X * Rr) HP H1 H2) as [Hlo Hhi].
  replace ((if false then -1 else 1) * IZR (Z.pos mq) * p2 (ex + kp - 53 + kq))%R
    with Q by (unfold Q; ring).
  replace ((if false then -1 else 1) * IZR (Z.pos mx) * p2 ex)%R
    with X by (unfold X; ring).
  assert (Hlo' : (- (/ 2251799813685248 * X) <= Q - X)%R).
  { apply Rmult_le_reg_r with (r := Rr); [exact HRr|]. lra. }
  assert (Hhi' : (Q - X <= / 2251799813685248 * X)%R).
  { apply Rmult_le_reg_r with (r := Rr); [exact HRr|]. lra. }
  unfold Rabs. destruct (Rcase_abs (Q - X)); lra.
Qed.

End Rounding.

(** ** Division by zero: no exception, an infinity or a NaN instead *)

Lemma Forall_map_intro {A B} (P : B -> Prop) (f : A -> B) (l : list A) :
  (forall x, P (f x)) -> Forall P (List.map f l).
Proof. intros H. induction l; cbn; constructor; auto. Qed.

Lemma div_zero_or_nan_not_finite (x z : float) :
  is_zero z || is_nan z = true -> not_finite (x / z) = true.
Proof.
  intros H. apply orb_true_iff in H as [H|H].
  - now apply Binary64.div_zero_not_finite.
  - now apply Binary64.div_nan_not_finite.
Qed.

Lemma normalize_zero_base (df : DataFrame) (col : string) (x : float) (s : Series) :
  getitem df col = Ok (x :: s) ->
  is_zero x = true ->
  exists out,
    normalize df col = Ok out /\ Forall (fun v => not_finite v = true) out.
Proof.
  intros Hget Hx. rewrite (normalize_nonempty df col x s Hget).
  eexists. split; [reflexivity|].
  apply Forall_map_intro. intros v.
  now apply Binary64.mul_not_finite_l, Binary64.div_zero_not_finite.
Qed.

(** C3, as the code has it. On a filtered table with at least one record no
    division raises: a record whose US_CPI is zero gets an infinite or NaN
    PPP implied rate, a zero India_CPI in the first record makes every PPP
    implied rate infinite or NaN, and a CPI column whose first value is zero
    is normalised to infinities and NaNs. *)
Theorem zero_divisor_gives_inf_or_nan
    (df : DataFrame) (r0 : row) (rest : list row) :
  rows df = r0 :: rest ->
  (forall i r, nth_error (rows df) i = Some r -> is_zero (US_CPI r) = true ->
     exists out v,
       ppp_implied df = Ok out /\ nth_error out i = Some v /\ not_finite v = true)
  /\ (is_zero (India_CPI r0) = true ->
      exists out,
        ppp_implied df = Ok out /\ Forall (fun v => not_finite v = true) out)
  /\ (is_zero (US_CPI r0) = true ->
      exists out,
        normalize df "US_CPI" = Ok out /\ Forall (fun v => not_finite v = true) out)
  /\ (is_zero (India_CPI r0) = true ->
      exists out,
        normalize df "India_CPI" = Ok out
        /\ Forall (fun v => not_finite v = true) out).
Proof.
  intros Hrows. rewrite (ppp_implied_nonempty df r0 rest Hrows).
  split; [|split; [|split]].
  - intros i r Hi Hr. eexists _, _. split; [reflexivity|].
    rewrite List.nth_error_map, Hi. cbn [option_map]. split; [reflexivity|].
    apply Binary64.div_not_finite_l, Binary64.mul_not_finite_r.
    now apply Binary64.div_zero_not_finite.
  - intros Hb. eexists. split; [reflexivity|].
    apply Forall_map_intro. intros r.
    apply div_zero_or_nan_not_finite. now apply Binary64.zero_div_zero_or_nan.
  - intros Ha. apply (normalize_zero_base df "US_CPI" (US_CPI r0) (List.map US_CPI rest));
      [|exact Ha].
    rewrite getitem_US_CPI. now rewrite Hrows.
  - intros Hb.
    apply (normalize_zero_base df "India_CPI" (India_CPI r0) (List.map India_CPI rest));
      [|exact Hb].
    rewrite getitem_India_CPI. now rewrite Hrows.
Qed.

Lemma zero_divisor_sample_zero :
  rows sample_zero = mkrow 0 (mkdate 2019 1 31) 100 100 60 :: List.tl sample_zero_rows
  /\ exists out v,
       ppp_implied sample_zero = Ok out /\ nth_error out 1 = Some v
       /\ not_finite v = true.
Proof.
  split; [reflexivity|].
  refine (proj1 (zero_divisor_gives_inf_or_nan sample_zero _ _ eq_refl)
                1%nat (mkrow 1 (mkdate 2019 2 28) 0 96 71) eq_refl eq_refl).
Defined.

(** C3 fails as stated: with a US CPI of zero in the second record the PPP
    implied rate is computed without any exception and its second cell is
    [infinity]; the deviation computed from it is NaN. *)
Lemma zero_cpi_raises_nothing :
  (exists out,
     ppp_implied sample_zero = Ok out /\ nth_error out 1 = Some infinity)
  /\ ppp_implied sample_zero <> Raise DivisionByZeroError
  /\ normalize (filter_range sample_zero (mkdate 2019 2 1) (mkdate 2019 3 31)) "US_CPI"
     = Ok [nan; infinity]
  /\ normalize (filter_range sample_zero (mkdate 2019 2 1) (mkdate 2019 3 31)) "US_CPI"
     <> Raise DivisionByZeroError.
Proof.
  assert (H1 : exists out,
             ppp_implied sample_zero = Ok out /\ nth_error out 1 = Some infinity).
  { eexists. split; [vm_compute; reflexivity | reflexivity]. }
  assert (H2 : normalize (filter_range sample_zero (mkdate 2019 2 1) (mkdate 2019 3 31))
                         "US_CPI" = Ok [nan; infinity])
    by (vm_compute; reflexivity).
  repeat split; try assumption.
  - destruct H1 as (out & -> & _). discriminate.
  - rewrite H2. discriminate.
Qed.

(** ** Normalisation and the PPP anchor *)

(** C6, as the code has it. When the first element of a series is a finite
    number other than zero, the first element of the normalised series is
    exactly 100. *)
Theorem normalize_first_is_100
    (df : DataFrame) (col : string) (x : float) (s : Series) :
  getitem df col = Ok (x :: s) ->
  finite_nonzero x = true ->
  exists out, normalize df col = Ok out /\ nth_error out 0 = Some 100%float.
Proof.
  intros Hget Hx. rewrite (normalize_nonempty df col x s Hget).
  eexists. split; [reflexivity|]. cbn [List.map nth_error].
  now rewrite (Binary64.div_self x Hx).
Qed.

Lemma normalize_first_sample :
  getitem sample "Exchange_Rate_INR_USD" = Ok [60; 71; 72]%float
  /\ finite_nonzero 60 = true
  /\ exists out,
       normalize sample "Exchange_Rate_INR_USD" = Ok out
       /\ nth_error out 0 = Some 100%float.
Proof.
  split; [reflexivity|]. split; [reflexivity|].
  exact (normalize_first_is_100 sample "Exchange_Rate_INR_USD" 60 [71; 72]%float
           eq_refl eq_refl).
Defined.

(** C6 fails as stated: a series that starts with zero is not empty, and
    its normalised first element is NaN, not 100. *)
Lemma normalize_zero_first_is_nan :
  getitem (filter_range sample_zero (mkdate 2019 2 1) (mkdate 2019 3 31)) "US_CPI"
    = Ok [0; 102]%float
  /\ exists out,
       normalize (filter_range sample_zero (mkdate 2019 2 1) (mkdate 2019 3 31)) "US_CPI"
         = Ok out
       /\ nth_error out 0 = Some nan
       /\ nth_error out 0 <> Some 100%float.
Proof.
  split; [reflexivity|]. exists [nan; infinity]. split; [vm_compute; reflexivity|].
  split; [reflexivity|]. cbn [nth_error]. intros H.
  assert (Hsf : Prim2SF nan = Prim2SF 100) by congruence.
  vm_compute in Hsf. discriminate Hsf.
Qed.

(** When the two CPI values of the first record are equal the ratio is
    exactly 1 and the anchor is exact. *)
Lemma ppp_implied_anchor_exact (df : DataFrame) (r0 : row) (rest : list row) :
  rows df = r0 :: rest ->
  India_CPI r0 = US_CPI r0 ->
  finite_nonzero (US_CPI r0) = true ->
  exists out,
    ppp_implied df = Ok out /\ nth_error out 0 = Some (Exchange_Rate_INR_USD r0).
Proof.
  intros Hrows Heq Hfin. rewrite (ppp_implied_nonempty df r0 rest Hrows).
  eexists. split; [reflexivity|]. rewrite Hrows. cbn [List.map nth_error].
  rewrite Heq, (Binary64.div_self _ Hfin).
  now rewrite Binary64.mul_one_r, Binary64.div_one_r.
Qed.

Lemma ordinary_finite_nonzero (x : float) :
  ordinary x = true -> finite_nonzero x = true.
Proof.
  intros H. destruct (Rounding.ordinary_SF x H) as (m & e & E & _).
  rewrite Binary64.finite_nonzero_SF. now rewrite E.
Qed.

(** C5, as the code has it. On a filtered table whose first record holds
    CPI values and an exchange rate of ordinary magnitude (positive, between
    2^-300 and 2^300), the PPP implied rate of the first record equals that
    record's exchange rate up to the two roundings of the formula: they
    differ by at most 2^-51 times the exchange rate, and not at all when
    India_CPI and US_CPI of the first record are equal. *)
Theorem ppp_implied_anchor_up_to_rounding
    (df : DataFrame) (r0 : row) (rest : list row) :
  rows df = r0 :: rest ->
  ordinary (US_CPI r0) = true ->
  ordinary (India_CPI r0) = true ->
  ordinary (Exchange_Rate_INR_USD r0) = true ->
  exists out v,
    ppp_implied df = Ok out
    /\ nth_error out 0 = Some v
    /\ (Rabs (float_to_R v - float_to_R (Exchange_Rate_INR_USD r0))
        <= / 2 ^ 51 * float_to_R (Exchange_Rate_INR_USD r0))%R
    /\ (India_CPI r0 = US_CPI r0 -> v = Exchange_Rate_INR_USD r0).
Proof.
  intros Hrows Ha Hb Hx. rewrite (ppp_implied_nonempty df r0 rest Hrows).
  eexists _, _. split; [reflexivity|]. rewrite Hrows. cbn [List.map nth_error].
  split; [reflexivity|]. split.
  - replace (2 ^ 51)%R with 2251799813685248%R by (cbn [pow]; lra).
    now apply Rounding.anchor_within_rounding.
  - intros Heq. rewrite Heq.
    rewrite (Binary64.div_self _ (ordinary_finite_nonzero _ Ha)).
    now rewrite Binary64.mul_one_r, Binary64.div_one_r.
Qed.

Lemma ppp_implied_anchor_sample :
  rows sample = mkrow 0 (mkdate 2019 1 31) 100 100 60 :: List.tl sample_rows
  /\ ordinary 100 = true
  /\ ordinary 60 = true
  /\ exists out v,
       ppp_implied sample = Ok out
       /\ nth_error out 0 = Some v
       /\ (Rabs (float_to_R v - float_to_R 60) <= / 2 ^ 51 * float_to_R 60)%R
       /\ (100%float = 100%float -> v = 60%float).
Proof.
  split; [reflexivity|]. split; [reflexivity|]. split; [reflexivity|].
  exact (ppp_implied_anchor_up_to_rounding sample _ _ eq_refl eq_refl eq_refl eq_refl).
Defined.

(** C5 fails as stated: the first record has nonzero CPI values (US 100,
    India 96) and an exchange rate of 60, and the two roundings of
    [60 * 0.96 / 0.96] leave 59.999999999999993. *)
Lemma ppp_implied_anchor_drifts :
  rows sample_drift <> []
  /\ ordinary 100 = true /\ ordinary 96 = true /\ ordinary 60 = true
  /\ getitem sample_drift "Exchange_Rate_INR_USD" = Ok [60; 61]%float
  /\ exists out v,
       ppp_implied sample_drift = Ok out
       /\ nth_error out 0 = Some v
       /\ (v =? 60)%float = false
       /\ (v <? 60)%float = true.
Proof.
  split; [discriminate|]. split; [reflexivity|]. split; [reflexivity|].
  split; [reflexivity|]. split; [reflexivity|].
  eexists _, _. split; [vm_compute; reflexivity|].
  split; [reflexivity|]. split; reflexivity.
Qed.

(** ** Year-over-year change *)

Lemma szip_length (op : float -> float -> float) (a b : Series) :
  length a = length b -> length (szip op a b) = length a.
Proof.
  revert b. induction a as [|x a IH]; intros [|y b] Hlen; cbn in *; try congruence.
  f_equal. apply IH. congruence.
Qed.

Lemma shift_length (n : nat) (s : Series) : length (shift n s) = length s.
Proof.
  unfold shift. rewrite List.length_firstn, List.length_app, List.repeat_length. lia.
Qed.

Lemma shift_nth_error_early (n : nat) (s : Series) (i : nat) :
  (i < n)%nat -> (i < length s)%nat -> nth_error (shift n s) i = Some nan.
Proof.
  intros Hn Hs. unfold shift. rewrite List.nth_error_firstn.
  destruct (Nat.ltb_spec i (length s)); [|lia].
  rewrite List.nth_error_app1 by (rewrite List.repeat_length; lia).
  now apply List.nth_error_repeat.
Qed.

Lemma shift_nth_error_late (n : nat) (s : Series) (i : nat) :
  (n <= i)%nat -> (i < length s)%nat ->
  nth_error (shift n s) i = nth_error s (i - n).
Proof.
  intros Hn Hs. unfold shift. rewrite List.nth_error_firstn.
  destruct (Nat.ltb_spec i (length s)); [|lia].
  rewrite List.nth_error_app2 by (rewrite List.repeat_length; lia).
  now rewrite List.repeat_length.
Qed.

Lemma is_nan_eq_nan (x : float) : is_nan x = true -> x = nan.
Proof.
  rewrite Binary64.is_nan_SF. intros H. apply Prim2SF_inj.
  change (Prim2SF nan) with S754_nan. now destruct (Prim2SF x).
Qed.

Lemma finite_nonzero_not_nan (x : float) : finite_nonzero x = true -> is_nan x = false.
Proof.
  unfold finite_nonzero, is_finite. intros H.
  apply andb_true_iff in H as [H _]. apply negb_true_iff, orb_false_iff in H.
  exact (proj1 H).
Qed.

Lemma ffill_from_length (prev : option float) (s : Series) :
  length (ffill_from prev s) = length s.
Proof.
  revert prev. induction s as [|x s IH]; intros prev; [reflexivity|].
  cbn [ffill_from]. destruct (is_nan x); [destruct prev|]; cbn [length]; now rewrite IH.
Qed.

Lemma ffill_length (s : Series) : length (ffill s) = length s.
Proof. apply ffill_from_length. Qed.

(** Across a run of missing cells the fill carries the value it started
    with. *)
Lemma ffill_from_gap (prev : option float) (s : Series) (k : nat) :
  (k < length s)%nat ->
  (forall m x, (m <= k)%nat -> nth_error s m = Some x -> is_nan x = true) ->
  nth_error (ffill_from prev s) k = Some (default nan prev).
Proof.
  revert prev k. induction s as [|x s IH]; intros prev k Hk Hall; [cbn in Hk; lia|].
  assert (Hx : is_nan x = true) by (apply (Hall 0%nat); [lia|reflexivity]).
  cbn [ffill_from]. rewrite Hx.
  destruct k as [|k].
  - destruct prev as [p|]; cbn [nth_error default]; [reflexivity|].
    now rewrite (is_nan_eq_nan x Hx).
  - cbn [length] in Hk.
    assert (Hs : forall m y, (m <= k)%nat -> nth_error s m = Some y -> is_nan y = true).
    { intros m y Hm Hy. apply (Hall (S m) y); [lia|exact Hy]. }
    destruct prev as [p|]; cbn [nth_error]; apply IH; (lia || exact Hs).
Qed.

(** After a cell that holds a value, the fill carries that value until the
    next cell that holds one. *)
Lemma ffill_from_valid (prev : option float) (s : Series) (j k : nat) (v : float) :
  (j <= k)%nat -> (k < length s)%nat ->
  nth_error s j = Some v -> is_nan v = false ->
  (forall m x, (j < m <= k)%nat -> nth_error s m = Some x -> is_nan x = true) ->
  nth_error (ffill_from prev s) k = Some v.
Proof.
  revert prev j k. induction s as [|x s IH]; intros prev j k Hjk Hk Hj Hv Hgap;
    [cbn in Hk; lia|].
  cbn [length] in Hk. destruct j as [|j].
  - cbn [nth_error] in Hj. injection Hj as ->.
    cbn [ffill_from]. rewrite Hv. destruct k as [|k]; [reflexivity|].
    cbn [nth_error]. change (Some v) with (Some (default nan (Some v))).
    apply ffill_from_gap; [lia|].
    intros m y Hm Hy. apply (Hgap (S m) y); [lia|exact Hy].
  - destruct k as [|k]; [lia|]. cbn [nth_error] in Hj.
    assert (Hs : forall m y, (j < m <= k)%nat -> nth_error s m = Some y ->
                             is_nan y = true).
    { intros m y Hm Hy. apply (Hgap (S m) y); [lia|exact Hy]. }
    cbn [ffill_from]. destruct (is_nan x); [destruct prev|]; cbn [nth_error];
      apply (IH _ j k); (lia || assumption).
Qed.

Lemma ffill_last_valid (s : Series) (k : nat) (v : float) :
  last_valid s k v -> nth_error (ffill s) k = Some v.
Proof.
  intros [Hk [(j & Hjk & Hj & Hv & Hgap)|[-> Hall]]]; unfold ffill.
  - now apply (ffill_from_valid None s j k v).
  - now apply (ffill_from_gap None s k).
Qed.

(** A cell that holds a value is left as it is. *)
Lemma ffill_keeps_value (s : Series) (i : nat) (x : float) :
  nth_error s i = Some x -> is_nan x = false -> nth_error (ffill s) i = Some x.
Proof.
  intros Hx Hv. apply ffill_last_valid. split.
  - apply List.nth_error_Some. congruence.
  - left. exists i. split; [lia|]. split; [exact Hx|]. split; [exact Hv|].
    intros m y Hm. lia.
Qed.

(** Every position of a series has exactly one filled value. *)
Lemma last_valid_exists (s : Series) (k : nat) :
  (k < length s)%nat -> exists v, last_valid s k v.
Proof.
  intros Hk. induction k as [|k IH].
  - destruct (nth_error s 0) as [x|] eqn:Hx;
      [|apply List.nth_error_None in Hx; lia].
    destruct (is_nan x) eqn:Hn.
    + exists nan. split; [exact Hk|]. right. split; [reflexivity|].
      intros m y Hm Hy. assert (m = 0)%nat by lia. subst m. congruence.
    + exists x. split; [exact Hk|]. left. exists 0%nat.
      split; [lia|]. split; [exact Hx|]. split; [exact Hn|]. intros m y Hm. lia.
  - destruct (nth_error s (S k)) as [x|] eqn:Hx;
      [|apply List.nth_error_None in Hx; lia].
    destruct (is_nan x) eqn:Hn.
    + destruct IH as [v [_ Hv]]; [lia|]. exists v. split; [exact Hk|].
      destruct Hv as [(j & Hjk & Hj & Hvv & Hgap)|[-> Hall]].
      * left. exists j. split; [lia|]. split; [exact Hj|]. split; [exact Hvv|].
        intros m y Hm Hy. destruct (Nat.eq_dec m (S k)) as [->|Hne].
        -- congruence.
        -- apply (Hgap m y); [lia|exact Hy].
      * right. split; [reflexivity|]. intros m y Hm Hy.
        destruct (Nat.eq_dec m (S k)) as [->|Hne].
        -- congruence.
        -- apply (Hall m y); [lia|exact Hy].
    + exists x. split; [exact Hk|]. left. exists (S k).
      split; [lia|]. split; [exact Hx|]. split; [exact Hn|]. intros m y Hm. lia.
Qed.

Lemma pct_change_nth_error (n : nat) (s : Series) (i : nat) :
  nth_error (pct_change n s) i =
    match nth_error (ffill s) i, nth_error (shift n (ffill s)) i with
    | Some x, Some y => Some (x / y - 1)%float
    | _, _ => None
    end.
Proof.
  unfold pct_change, ssub_scalar, sdiv.
  rewrite List.nth_error_map, szip_nth_error.
  destruct (nth_error (ffill s) i), (nth_error (shift n (ffill s)) i); reflexivity.
Qed.

(** C4. For a series with more than 12 records the year-over-year column
    has the length of the series and is NaN (pandas' null) at every
    position below 12.  At every position [i >= 12] it is
    [(x / y - 1) * 100] where [x] and [y] are the values that positions [i]
    and [i - 12] hold after missing cells are filled from the last record
    before them that has a value, the record 12 places earlier being taken
    by position, whatever the dates are.  So it is
    [(series[i] / series[i - 12] - 1) * 100] wherever neither of the two
    cells is missing, and at every position from 12 on when the series has
    no missing cell. *)
Theorem year_over_year_by_record_count
    (df : DataFrame) (col : string) (s : Series) :
  getitem df col = Ok s ->
  (12 < length s)%nat ->
  exists out,
    year_over_year df col = Ok out
    /\ length out = length s
    /\ (forall i, (i < 12)%nat -> nth_error out i = Some nan)
    /\ (forall i x y, (12 <= i)%nat ->
          last_valid s i x -> last_valid s (i - 12) y ->
          nth_error out i = Some ((x / y - 1) * 100)%float)
    /\ (forall i x y, (12 <= i)%nat ->
          nth_error s i = Some x -> nth_error s (i - 12) = Some y ->
          is_nan x = false -> is_nan y = false ->
          nth_error out i = Some ((x / y - 1) * 100)%float)
    /\ (Forall (fun x => is_nan x = false) s ->
        forall i x y, (12 <= i)%nat ->
          nth_error s i = Some x -> nth_error s (i - 12) = Some y ->
          nth_error out i = Some ((x / y - 1) * 100)%float).
Proof.
  intros Hget Hlen. unfold year_over_year. rewrite Hget. cbn [rbind].
  eexists. split; [reflexivity|].
  assert (Hfilled : forall i x y, (12 <= i)%nat -> (i < length s)%nat ->
            nth_error (ffill s) i = Some x -> nth_error (ffill s) (i - 12) = Some y ->
            nth_error (smul_scalar (pct_change 12 s) 100) i
              = Some ((x / y - 1) * 100)%float).
  { intros i x y Hi Hil Hx Hy. unfold smul_scalar.
    rewrite List.nth_error_map, pct_change_nth_error, Hx.
    rewrite shift_nth_error_late by (rewrite ?ffill_length; lia). now rewrite Hy. }
  assert (Hvalue : forall i x y, (12 <= i)%nat ->
            nth_error s i = Some x -> nth_error s (i - 12) = Some y ->
            is_nan x = false -> is_nan y = false ->
            nth_error (smul_scalar (pct_change 12 s) 100) i
              = Some ((x / y - 1) * 100)%float).
  { intros i x y Hi Hx Hy Hnx Hny. apply Hfilled; [exact Hi| |
      now apply ffill_keeps_value | now apply ffill_keeps_value].
    apply List.nth_error_Some. congruence. }
  split; [|split; [|split; [|split]]].
  - unfold smul_scalar, pct_change, ssub_scalar, sdiv.
    rewrite !List.length_map, szip_length by now rewrite shift_length.
    apply ffill_length.
  - intros i Hi. unfold smul_scalar.
    rewrite List.nth_error_map, pct_change_nth_error.
    rewrite shift_nth_error_early by (rewrite ?ffill_length; lia).
    destruct (nth_error (ffill s) i) as [x|] eqn:Hx.
    + cbn [option_map]. now rewrite Binary64.div_nan_r.
    + apply List.nth_error_None in Hx. rewrite ffill_length in Hx. lia.
  - intros i x y Hi Hx Hy. apply Hfilled; [exact Hi|exact (proj1 Hx)| |];
      now apply ffill_last_valid.
  - exact Hvalue.
  - intros Hall i x y Hi Hx Hy. rewrite List.Forall_forall in Hall.
    apply Hvalue; try assumption; apply Hall; eapply List.nth_error_In; eassumption.
Qed.

Lemma year_over_year_monthly :
  exists s,
    getitem monthly "US_CPI" = Ok s
    /\ (12 < length s)%nat
    /\ exists out,
         year_over_year monthly "US_CPI" = Ok out
         /\ length out = length s
         /\ (forall i, (i < 12)%nat -> nth_error out i = Some nan)
         /\ (forall i x y, (12 <= i)%nat ->
               last_valid s i x -> last_valid s (i - 12) y ->
               nth_error out i = Some ((x / y - 1) * 100)%float)
         /\ (forall i x y, (12 <= i)%nat ->
               nth_error s i = Some x -> nth_error s (i - 12) = Some y ->
               is_nan x = false -> is_nan y = false ->
               nth_error out i = Some ((x / y - 1) * 100)%float)
         /\ (Forall (fun x => is_nan x = false) s ->
             forall i x y, (12 <= i)%nat ->
               nth_error s i = Some x -> nth_error s (i - 12) = Some y ->
               nth_error out i = Some ((x / y - 1) * 100)%float).
Proof.
  exists (List.map US_CPI monthly_rows).
  assert (Hlen : (12 < length (List.map US_CPI monthly_rows))%nat)
    by (vm_compute; lia).
  split; [reflexivity|]. split; [exact Hlen|].
  exact (year_over_year_by_record_count monthly "US_CPI" _ eq_refl Hlen).
Defined.

(** C4 fails as stated on a series with a missing cell.  In the monthly
    table with the US CPI of record 1 missing, position 13 is not
    [(series[13] / series[1] - 1) * 100], which is NaN: the cell of record 1
    is read as 100, the value of record 0, and the column holds
    [(113 / 100 - 1) * 100], just below 13. *)
Lemma year_over_year_fills_missing_cell :
  exists s out x y v,
    getitem monthly_gap "US_CPI" = Ok s
    /\ (12 < length s)%nat
    /\ year_over_year monthly_gap "US_CPI" = Ok out
    /\ nth_error s 13 = Some x /\ nth_error s (13 - 12) = Some y
    /\ is_nan ((x / y - 1) * 100)%float = true
    /\ nth_error out 13 = Some v
    /\ v = ((113 / 100 - 1) * 100)%float
    /\ (12 <? v)%float = true /\ (v <? 13)%float = true
    /\ nth_error out 13 <> Some ((x / y - 1) * 100)%float.
Proof.
  exists (List.map US_CPI monthly_gap_rows).
  eexists. exists 113%float, nan. eexists.
  split; [reflexivity|]. split; [vm_compute; lia|].
  split; [vm_compute; reflexivity|].
  split; [vm_compute; reflexivity|]. split; [vm_compute; reflexivity|].
  split; [vm_compute; reflexivity|]. split; [vm_compute; reflexivity|].
  split; [vm_compute; reflexivity|].
  split; [vm_compute; reflexivity|]. split; [vm_compute; reflexivity|].
  intros H. cbn [nth_error] in H.
  assert (Hsf : forall a b : float, Some a = Some b -> Prim2SF a = Prim2SF b)
    by (intros a b E; congruence).
  apply Hsf in H. vm_compute in H. discriminate H.
Qed.

(** ** The script on the heap *)

Lemma load_run (h : gmap loc DataFrame) (l : loc) (d : DataFrame) :
  h !! l = Some d -> load l h = (Ok d, h).
Proof. intros H. unfold load. now rewrite H. Qed.

Lemma assign_run (h : gmap loc DataFrame) (t : loc) (name : string)
    (expr : DataFrame -> result Series) (d : DataFrame) :
  h !! t = Some d ->
  assign t name expr h =
    match expr d with
    | Ok s => (Ok tt, <[t := setitem d name s]> h)
    | Raise e => (Raise e, h)
    end.
Proof.
  intros H. unfold assign, mbind. rewrite (load_run h t d H). unfold lift.
  destruct (expr d) as [s|e]; [|reflexivity].
  now rewrite (load_run h t d H).
Qed.

(** The filter step allocates; it returns a reference that was not in use,
    holding the filtered copy, and changes no object that existed. *)
Lemma filter_data_run (h : gmap loc DataFrame) (df : loc) (raw : DataFrame)
    (s e : date) :
  h !! df = Some raw ->
  exists l h',
    filter_data df s e h = (Ok l, h')
    /\ h !! l = None
    /\ h' !! l = Some (filter_range raw s e)
    /\ (forall l' d, h !! l' = Some d -> h' !! l' = Some d).
Proof.
  intros Hdf. unfold filter_data, mbind. rewrite (load_run h df raw Hdf).
  unfold alloc, load.
  set (l1 := fresh (dom h)).
  set (h1 := <[l1 := getitem_mask raw (date_mask raw s e)]> h).
  assert (Hl1 : h !! l1 = None) by (apply not_elem_of_dom, is_fresh).
  assert (Hh1 : h1 !! l1 = Some (getitem_mask raw (date_mask raw s e)))
    by (unfold h1; apply lookup_insert_eq).
  rewrite Hh1.
  set (l2 := fresh (dom h1)).
  assert (Hl2 : h1 !! l2 = None) by (apply not_elem_of_dom, is_fresh).
  exists l2, (<[l2 := copy (getitem_mask raw (date_mask raw s e))]> h1).
  split; [reflexivity|].
  unfold h1 in Hl2. apply lookup_insert_None in Hl2 as [Hl2 Hne].
  split; [exact Hl2|]. split; [apply lookup_insert_eq|].
  intros l' d Hl'.
  rewrite lookup_insert_ne by congruence.
  unfold h1. rewrite lookup_insert_ne by congruence. exact Hl'.
Qed.

Lemma key_metrics_run (h : gmap loc DataFrame) (t : loc) (d : DataFrame) :
  h !! t = Some d -> key_metrics t h = (compute_summary d, h).
Proof. intros H. unfold key_metrics, mbind. now rewrite (load_run h t d H). Qed.

(** The three column steps, run on the heap, store what [derived_table]
    computes. *)
Lemma columns_run {A} (h : gmap loc DataFrame) (t : loc) (d d' : DataFrame)
    (k : M A) :
  h !! t = Some d ->
  derived_table d = Ok d' ->
  mbind (yoy_columns t)
        (fun _ => mbind (normalized_columns t) (fun _ => mbind (ppp_columns t) (fun _ => k))) h
  = k (<[t := d']> h).
Proof.
  intros Ht Hd. unfold derived_table, with_column in Hd.
  unfold yoy_columns, normalized_columns, ppp_columns, mbind.
  destruct (year_over_year d "US_CPI") as [c1|] eqn:E1; [|discriminate Hd].
  cbn [rbind] in Hd. rewrite (assign_run h t _ _ d Ht), E1.
  set (d1 := setitem d "US_Inflation_YoY" c1) in *.
  destruct (year_over_year d1 "India_CPI") as [c2|] eqn:E2; [|discriminate Hd].
  cbn [rbind] in Hd.
  rewrite (assign_run _ t _ _ d1 (lookup_insert_eq _ _ _)), E2, insert_insert_eq.
  set (d2 := setitem d1 "India_Inflation_YoY" c2) in *.
  destruct (normalize d2 "US_CPI") as [c3|] eqn:E3; [|discriminate Hd].
  cbn [rbind] in Hd.
  rewrite (assign_run _ t _ _ d2 (lookup_insert_eq _ _ _)), E3, insert_insert_eq.
  set (d3 := setitem d2 "US_CPI_Normalized" c3) in *.
  destruct (normalize d3 "India_CPI") as [c4|] eqn:E4; [|discriminate Hd].
  cbn [rbind] in Hd.
  rewrite (assign_run _ t _ _ d3 (lookup_insert_eq _ _ _)), E4, insert_insert_eq.
  set (d4 := setitem d3 "India_CPI_Normalized" c4) in *.
  destruct (normalize d4 "Exchange_Rate_INR_USD") as [c5|] eqn:E5; [|discriminate Hd].
  cbn [rbind] in Hd.
  rewrite (assign_run _ t _ _ d4 (lookup_insert_eq _ _ _)), E5, insert_insert_eq.
  set (d5 := setitem d4 "Exchange_Rate_Normalized" c5) in *.
  destruct (ppp_implied d5) as [c6|] eqn:E6; [|discriminate Hd].
  cbn [rbind] in Hd.
  rewrite (assign_run _ t _ _ d5 (lookup_insert_eq _ _ _)), E6, insert_insert_eq.
  set (d6 := setitem d5 "PPP_Implied" c6) in *.
  destruct (ppp_deviation d6) as [c7|] eqn:E7; [|discriminate Hd].
  cbn [rbind] in Hd.
  rewrite (assign_run _ t _ _ d6 (lookup_insert_eq _ _ _)), E7, insert_insert_eq.
  injection Hd as <-. reflexivity.
Qed.

(** *** What the derived table holds *)

Lemma assoc_set_eq (name : string) (s : Series) (cs : list (string * Series)) :
  assoc name (assoc_set name s cs) = Some s.
Proof.
  induction cs as [|[k v] cs IH]; cbn.
  - now rewrite String.eqb_refl.
  - destruct (String.eqb k name) eqn:E; cbn; now rewrite E.
Qed.

Lemma assoc_set_ne (name other : string) (s : Series) (cs : list (string * Series)) :
  String.eqb other name = false ->
  assoc name (assoc_set other s cs) = assoc name cs.
Proof.
  intros Hne. induction cs as [|[k v] cs IH]; cbn.
  - now rewrite Hne.
  - destruct (String.eqb k other) eqn:E; cbn.
    + apply String.eqb_eq in E. subst k. now rewrite Hne.
    + now rewrite IH.
Qed.

Lemma getitem_setitem_ne (d : DataFrame) (name other : string) (s : Series) :
  String.eqb other name = false ->
  getitem (setitem d other s) name = getitem d name.
Proof. intros Hne. unfold getitem, setitem. cbn [rows added]. now rewrite assoc_set_ne. Qed.

Lemma getitem_setitem_eq (d : DataFrame) (name : string) (s : Series) :
  String.eqb name "US_CPI" = false ->
  String.eqb name "India_CPI" = false ->
  String.eqb name "Exchange_Rate_INR_USD" = false ->
  getitem (setitem d name s) name = Ok s.
Proof.
  intros H1 H2 H3. unfold getitem, setitem. cbn [rows added].
  now rewrite H1, H2, H3, assoc_set_eq.
Qed.

(** On a frame with at least one record every column step succeeds; the
    derived table has the records of the frame and each added column holds
    the value of its right-hand side on the frame. *)
Lemma derived_table_nonempty (d : DataFrame) (r0 : row) (rest : list row) :
  rows d = r0 :: rest ->
  exists d' implied,
    derived_table d = Ok d'
    /\ rows d' = rows d
    /\ ppp_implied d = Ok implied
    /\ getitem d' "US_Inflation_YoY" = year_over_year d "US_CPI"
    /\ getitem d' "India_Inflation_YoY" = year_over_year d "India_CPI"
    /\ getitem d' "US_CPI_Normalized" = normalize d "US_CPI"
    /\ getitem d' "India_CPI_Normalized" = normalize d "India_CPI"
    /\ getitem d' "Exchange_Rate_Normalized" = normalize d "Exchange_Rate_INR_USD"
    /\ getitem d' "PPP_Implied" = Ok implied
    /\ getitem d' "PPP_Deviation"
       = Ok (smul_scalar
               (sdiv (ssub (List.map Exchange_Rate_INR_USD (rows d)) implied) implied)
               100).
Proof.
  intros Hrows.
  assert (exists c, normalize d "US_CPI" = Ok c) as [c3 N3].
  { eexists. eapply normalize_nonempty. now rewrite getitem_US_CPI, Hrows. }
  assert (exists c, normalize d "India_CPI" = Ok c) as [c4 N4].
  { eexists. eapply normalize_nonempty. now rewrite getitem_India_CPI, Hrows. }
  assert (exists c, normalize d "Exchange_Rate_INR_USD" = Ok c) as [c5 N5].
  { eexists. eapply normalize_nonempty. now rewrite getitem_Exchange_Rate, Hrows. }
  pose proof (ppp_implied_nonempty d r0 rest Hrows) as N6.
  set (c6 := List.map _ (rows d)) in N6.
  unfold derived_table, with_column.
  change (year_over_year d "US_CPI")
    with (Ok (smul_scalar (pct_change 12 (List.map US_CPI (rows d))) 100)).
  cbn [rbind]. set (d1 := setitem d "US_Inflation_YoY" _).
  change (year_over_year d1 "India_CPI")
    with (Ok (smul_scalar (pct_change 12 (List.map India_CPI (rows d))) 100)).
  cbn [rbind]. set (d2 := setitem d1 "India_Inflation_YoY" _).
  change (normalize d2 "US_CPI") with (normalize d "US_CPI"). rewrite N3.
  cbn [rbind]. set (d3 := setitem d2 "US_CPI_Normalized" c3).
  change (normalize d3 "India_CPI") with (normalize d "India_CPI"). rewrite N4.
  cbn [rbind]. set (d4 := setitem d3 "India_CPI_Normalized" c4).
  change (normalize d4 "Exchange_Rate_INR_USD")
    with (normalize d "Exchange_Rate_INR_USD"). rewrite N5.
  cbn [rbind]. set (d5 := setitem d4 "Exchange_Rate_Normalized" c5).
  change (ppp_implied d5) with (ppp_implied d). rewrite N6.
  cbn [rbind]. set (d6 := setitem d5 "PPP_Implied" c6).
  assert (G6 : getitem d6 "PPP_Implied" = Ok c6)
    by (now apply getitem_setitem_eq).
  assert (N7 : ppp_deviation d6
               = Ok (smul_scalar
                       (sdiv (ssub (List.map Exchange_Rate_INR_USD (rows d)) c6) c6) 100)).
  { unfold ppp_deviation. rewrite G6. reflexivity. }
  rewrite N7. cbn [rbind].
  eexists _, c6. split; [reflexivity|]. split; [reflexivity|]. split; [reflexivity|].
  rewrite <- N3, <- N4, <- N5.
  unfold d6, d5, d4, d3, d2, d1 in *.
  repeat split;
    rewrite ?getitem_setitem_ne by reflexivity;
    now rewrite getitem_setitem_eq by reflexivity.
Qed.

(** *** The two ways the script ends *)

Lemma script_run_empty (h : gmap loc DataFrame) (df : loc) (raw : DataFrame)
    (s e : date) :
  h !! df = Some raw ->
  rows (filter_range raw s e) = [] ->
  exists l h',
    filter_data df s e h = (Ok l, h')
    /\ script df s e h = (Raise IndexError, h').
Proof.
  intros Hdf Hempty.
  destruct (filter_data_run h df raw s e Hdf) as (l & h' & Hrun & _ & Hl & _).
  exists l, h'. split; [exact Hrun|].
  unfold script, mbind at 1. rewrite Hrun.
  unfold mbind at 1. rewrite (key_metrics_run h' l _ Hl).
  unfold compute_summary. now rewrite (calculate_metrics_empty _ Hempty).
Qed.

Lemma script_run_nonempty (h : gmap loc DataFrame) (df : loc) (raw : DataFrame)
    (s e : date) (r0 : row) (rest : list row) :
  h !! df = Some raw ->
  rows (filter_range raw s e) = r0 :: rest ->
  exists l h' m d',
    filter_data df s e h = (Ok l, h')
    /\ compute_summary (filter_range raw s e) = Ok m
    /\ derived_table (filter_range raw s e) = Ok d'
    /\ script df s e h = (Ok (mkoutputs l m), <[l := d']> h').
Proof.
  intros Hdf Hrows.
  destruct (filter_data_run h df raw s e Hdf) as (l & h' & Hrun & _ & Hl & _).
  pose proof (compute_summary_nonempty _ r0 rest Hrows) as Hm. cbv zeta in Hm.
  set (m := mksummary _ _ _ _) in Hm.
  destruct (derived_table_nonempty _ r0 rest Hrows) as (d' & p & Hd & _).
  exists l, h', m, d'. repeat split; try assumption.
  unfold script, mbind at 1. rewrite Hrun.
  unfold mbind at 1. rewrite (key_metrics_run h' l _ Hl), Hm.
  now rewrite (columns_run h' l _ d' _ Hl Hd).
Qed.

(** ** An empty date range *)

(** C2, as the code has it. When the filter selects no record, each
    computation that indexes the first record (the summary metrics, the
    three normalisations and the PPP implied rate) raises pandas'
    [IndexError], and the script stops with that error at the summary
    metrics, before any derived column is computed. *)
Theorem empty_range_raises_IndexError (raw : DataFrame) (s e : date) :
  rows (filter_range raw s e) = [] ->
  calculate_metrics (filter_range raw s e) = Raise IndexError
  /\ normalize (filter_range raw s e) "US_CPI" = Raise IndexError
  /\ normalize (filter_range raw s e) "India_CPI" = Raise IndexError
  /\ normalize (filter_range raw s e) "Exchange_Rate_INR_USD" = Raise IndexError
  /\ ppp_implied (filter_range raw s e) = Raise IndexError
  /\ (forall (h : gmap loc DataFrame) (df : loc),
        h !! df = Some raw -> fst (script df s e h) = Raise IndexError).
Proof.
  intros Hempty. split; [|split; [|split; [|split; [|split]]]].
  - now apply calculate_metrics_empty.
  - apply normalize_empty. now rewrite getitem_US_CPI, Hempty.
  - apply normalize_empty. now rewrite getitem_India_CPI, Hempty.
  - apply normalize_empty. now rewrite getitem_Exchange_Rate, Hempty.
  - now apply ppp_implied_empty.
  - intros h df Hdf.
    destruct (script_run_empty h df raw s e Hdf Hempty) as (l & h' & _ & ->).
    reflexivity.
Qed.

Lemma empty_range_sample :
  rows (filter_range sample (mkdate 2020 1 1) (mkdate 2020 12 31)) = []
  /\ calculate_metrics (filter_range sample (mkdate 2020 1 1) (mkdate 2020 12 31))
     = Raise IndexError.
Proof.
  split; [reflexivity|].
  exact (proj1 (empty_range_raises_IndexError sample (mkdate 2020 1 1)
                  (mkdate 2020 12 31) eq_refl)).
Defined.

(** C2 fails as stated: a range after the last record selects nothing, and
    the computations that index the first record fail with [IndexError],
    not with an [EmptyRangeError]. *)
Lemma empty_range_is_not_EmptyRangeError :
  rows (filter_range sample (mkdate 2020 1 1) (mkdate 2020 12 31)) = []
  /\ calculate_metrics (filter_range sample (mkdate 2020 1 1) (mkdate 2020 12 31))
     <> Raise EmptyRangeError
  /\ normalize (filter_range sample (mkdate 2020 1 1) (mkdate 2020 12 31)) "US_CPI"
     <> Raise EmptyRangeError
  /\ ppp_implied (filter_range sample (mkdate 2020 1 1) (mkdate 2020 12 31))
     <> Raise EmptyRangeError
  /\ fst (script 1%positive (mkdate 2020 1 1) (mkdate 2020 12 31) sample_heap)
     <> Raise EmptyRangeError.
Proof.
  assert (Hempty : rows (filter_range sample (mkdate 2020 1 1) (mkdate 2020 12 31)) = [])
    by reflexivity.
  split; [exact Hempty|].
  rewrite (calculate_metrics_empty _ Hempty), (ppp_implied_empty _ Hempty).
  rewrite (normalize_empty _ "US_CPI") by reflexivity.
  destruct (script_run_empty sample_heap 1%positive sample (mkdate 2020 1 1)
              (mkdate 2020 12 31) eq_refl Hempty) as (l & h' & _ & ->).
  repeat split; discriminate.
Qed.

(** ** The loaded table is left as it was *)

(** C10. Whatever the table and the bounds, running the script leaves the
    object that [df] names exactly as it was (its records, columns and
    hence its first and last dates), and every other object that existed;
    when the script succeeds, [df_filtered] names a new object, distinct
    from [df], which holds the filtered records with the derived columns. *)
Theorem script_leaves_raw_table_unchanged
    (h : gmap loc DataFrame) (df : loc) (raw : DataFrame) (s e : date) :
  h !! df = Some raw ->
  snd (script df s e h) !! df = Some raw
  /\ (forall d, snd (script df s e h) !! df = Some d ->
        rows d = rows raw /\ added d = added raw
        /\ min_date d = min_date raw /\ max_date d = max_date raw)
  /\ (forall l d, h !! l = Some d -> snd (script df s e h) !! l = Some d)
  /\ (forall out, fst (script df s e h) = Ok out ->
        h !! df_filtered out = None
        /\ df_filtered out <> df
        /\ exists f,
             snd (script df s e h) !! df_filtered out = Some f
             /\ derived_table (filter_range raw s e) = Ok f
             /\ rows f = rows (filter_range raw s e)).
Proof.
  intros Hdf.
  assert (Hsame : forall h' : gmap loc DataFrame, h' !! df = Some raw ->
            forall d, h' !! df = Some d ->
              rows d = rows raw /\ added d = added raw
              /\ min_date d = min_date raw /\ max_date d = max_date raw).
  { intros h' Hraw d Hd. rewrite Hraw in Hd. injection Hd as <-. repeat split. }
  destruct (filter_data_run h df raw s e Hdf) as (l & h' & Hrun & Hnew & Hl & Hold).
  assert (Hne : forall l' d, h !! l' = Some d -> l <> l') by (intros l' d Hl' ->; congruence).
  destruct (rows (filter_range raw s e)) as [|r0 rest] eqn:Hrows.
  - destruct (script_run_empty h df raw s e Hdf Hrows) as (l1 & h1 & Hrun1 & Hscript).
    rewrite Hrun in Hrun1. injection Hrun1 as <- <-. rewrite Hscript. cbn [fst snd].
    split; [now apply Hold|]. split; [apply Hsame; now apply Hold|].
    split; [exact Hold|]. intros out Hout. discriminate Hout.
  - destruct (script_run_nonempty h df raw s e r0 rest Hdf Hrows)
      as (l1 & h1 & m & d' & Hrun1 & Hm & Hd & Hscript).
    rewrite Hrun in Hrun1. injection Hrun1 as <- <-. rewrite Hscript. cbn [fst snd].
    assert (Hkeep : <[l := d']> h' !! df = Some raw).
    { rewrite lookup_insert_ne by (now apply (Hne df raw)). now apply Hold. }
    split; [exact Hkeep|]. split; [now apply Hsame|]. split.
    + intros l' d Hl'. rewrite lookup_insert_ne by (now apply (Hne l' d)).
      now apply Hold.
    + intros out Hout. injection Hout as <-. cbn [df_filtered].
      split; [exact Hnew|]. split; [now apply (Hne df raw)|].
      exists d'. split; [apply lookup_insert_eq|]. split; [exact Hd|].
      destruct (derived_table_nonempty _ r0 rest Hrows) as (d'' & p & Hd' & Hr & _).
      rewrite Hd in Hd'. injection Hd' as <-. now rewrite Hr, Hrows.
Qed.

Lemma script_leaves_sample_unchanged :
  sample_heap !! 1%positive = Some sample
  /\ snd (script 1%positive (mkdate 2019 2 1) (mkdate 2019 3 31) sample_heap)
       !! 1%positive = Some sample.
Proof.
  split; [reflexivity|].
  exact (proj1 (script_leaves_raw_table_unchanged sample_heap 1%positive sample
                  (mkdate 2019 2 1) (mkdate 2019 3 31) eq_refl)).
Defined.

(** ** The correlation matrix *)

Section Pearson.

Local Open Scope R_scope.











End Pearson.





(** * Further properties of the script *)

(** ** The bounds offered by the date inputs *)

Lemma date_leb_refl (a : date) : date_leb a a = true.
Proof.
  unfold date_leb. rewrite !Z.eqb_refl, Z.leb_refl. cbn.
  now rewrite !orb_true_r.
Qed.

Lemma date_leb_total (a b : date) : date_leb a b = false -> date_leb b a = true.
Proof.
  unfold date_leb. destruct a as [ya ma da], b as [yb mb db]. cbn [year month day].
  rewrite !orb_false_iff, !andb_false_iff, !orb_false_iff, !andb_false_iff,
    !orb_true_iff, !andb_true_iff, !orb_true_iff, !andb_true_iff,
    !Z.ltb_lt, !Z.ltb_ge, !Z.eqb_eq, !Z.eqb_neq, !Z.leb_le, !Z.leb_gt.
  lia.
Qed.

Lemma fold_min_date (rs : list row) (m0 : date) :
  let m := fold_left (fun m x => if date_leb (Date x) m then Date x else m) rs m0 in
  date_le m m0
  /\ (forall x, In x rs -> date_le m (Date x))
  /\ (m = m0 \/ exists x, In x rs /\ Date x = m).
Proof.
  revert m0. induction rs as [|r rs IH]; intros m0; cbn [fold_left].
  - split; [apply date_leb_refl|]. split; [intros x []|now left].
  - destruct (date_leb (Date r) m0) eqn:E.
    + destruct (IH (Date r)) as (H1 & H2 & H3). split; [|split].
      * exact (date_le_trans _ _ _ H1 E).
      * intros x [<-|Hx]; [exact H1 | now apply H2].
      * right. destruct H3 as [H3|(x & Hx & Hd)].
        -- exists r. split; [now left | now rewrite H3].
        -- exists x. split; [now right | exact Hd].
    + destruct (IH m0) as (H1 & H2 & H3). split; [exact H1|]. split.
      * intros x [<-|Hx]; [|now apply H2].
        exact (date_le_trans _ _ _ H1 (date_leb_total _ _ E)).
      * destruct H3 as [->|(x & Hx & Hd)]; [now left|].
        right. exists x. split; [now right | exact Hd].
Qed.

Lemma fold_max_date (rs : list row) (m0 : date) :
  let m := fold_left (fun m x => if date_leb m (Date x) then Date x else m) rs m0 in
  date_le m0 m
  /\ (forall x, In x rs -> date_le (Date x) m)
  /\ (m = m0 \/ exists x, In x rs /\ Date x = m).
Proof.
  revert m0. induction rs as [|r rs IH]; intros m0; cbn [fold_left].
  - split; [apply date_leb_refl|]. split; [intros x []|now left].
  - destruct (date_leb m0 (Date r)) eqn:E.
    + destruct (IH (Date r)) as (H1 & H2 & H3). split; [|split].
      * exact (date_le_trans _ _ _ E H1).
      * intros x [<-|Hx]; [exact H1 | now apply H2].
      * right. destruct H3 as [H3|(x & Hx & Hd)].
        -- exists r. split; [now left | now rewrite H3].
        -- exists x. split; [now right | exact Hd].
    + destruct (IH m0) as (H1 & H2 & H3). split; [exact H1|]. split.
      * intros x [<-|Hx]; [|now apply H2].
        exact (date_le_trans _ _ _ (date_leb_total _ _ E) H1).
      * destruct H3 as [->|(x & Hx & Hd)]; [now left|].
        right. exists x. split; [now right | exact Hd].
Qed.

Lemma min_max_date_nonempty (df : DataFrame) (r : row) (rs : list row) :
  rows df = r :: rs ->
  exists lo hi,
    min_date df = Some lo /\ max_date df = Some hi
    /\ (forall x, In x (rows df) -> date_le lo (Date x) /\ date_le (Date x) hi)
    /\ (exists x, In x (rows df) /\ Date x = lo)
    /\ (exists x, In x (rows df) /\ Date x = hi).
Proof.
  intros Hrows. unfold min_date, max_date. rewrite Hrows.
  destruct (fold_min_date rs (Date r)) as (L1 & L2 & L3).
  destruct (fold_max_date rs (Date r)) as (U1 & U2 & U3).
  eexists _, _. split; [reflexivity|]. split; [reflexivity|]. split; [|split].
  - intros x [<-|Hx]; split; auto.
  - destruct L3 as [L3|(x & Hx & Hd)].
    + exists r. split; [now left | now rewrite L3].
    + exists x. split; [now right | exact Hd].
  - destruct U3 as [U3|(x & Hx & Hd)].
    + exists r. split; [now left | now rewrite U3].
    + exists x. split; [now right | exact Hd].
Qed.

(** X1. The bounds computed for the two date inputs: on a table with at
    least one record, [min_date] and [max_date] are dates of records of the
    table, and every record's date lies between them. *)
Theorem min_max_date_bound_the_table (df : DataFrame) (r : row) (rs : list row) :
  rows df = r :: rs ->
  exists lo hi,
    min_date df = Some lo /\ max_date df = Some hi
    /\ date_le lo hi
    /\ (forall x, In x (rows df) -> date_le lo (Date x) /\ date_le (Date x) hi)
    /\ (exists x, In x (rows df) /\ Date x = lo)
    /\ (exists x, In x (rows df) /\ Date x = hi).
Proof.
  intros Hrows.
  destruct (min_max_date_nonempty df r rs Hrows) as (lo & hi & Hlo & Hhi & Hall & Hmin & Hmax).
  exists lo, hi. split; [exact Hlo|]. split; [exact Hhi|]. split.
  - destruct (Hall r) as [H1 H2]; [rewrite Hrows; now left|].
    exact (date_le_trans _ _ _ H1 H2).
  - split; [exact Hall|]. split; [exact Hmin | exact Hmax].
Qed.

Lemma min_max_date_sample :
  rows sample = mkrow 0 (mkdate 2019 1 31) 100 100 60 :: List.tl sample_rows
  /\ exists lo hi,
       min_date sample = Some lo /\ max_date sample = Some hi
       /\ date_le lo hi
       /\ (forall x, In x (rows sample) -> date_le lo (Date x) /\ date_le (Date x) hi)
       /\ (exists x, In x (rows sample) /\ Date x = lo)
       /\ (exists x, In x (rows sample) /\ Date x = hi).
Proof.
  split; [reflexivity|].
  exact (min_max_date_bound_the_table sample _ _ eq_refl).
Defined.

(** ** Which ranges the script survives *)


Lemma filter_keeps_none {A} (p : A -> bool) (l : list A) :
  (forall x, In x l -> p x = false) -> List.filter p l = [].
Proof.
  induction l as [|x l IH]; intros H; [reflexivity|]. cbn.
  rewrite (H x (or_introl eq_refl)). apply IH. intros y Hy. apply H. now right.
Qed.




(** X3. The two date inputs are checked against the table but not against
    each other: when the end date chosen is before the start date, the
    filter keeps nothing and the script stops with [IndexError]. *)
Theorem inverted_bounds_stop_the_script (raw : DataFrame) (start_date end_date : date) :
  date_leb start_date end_date = false ->
  rows (filter_range raw start_date end_date) = []
  /\ (forall (h : gmap loc DataFrame) (df : loc),
        h !! df = Some raw ->
        fst (script df start_date end_date h) = Raise IndexError).
Proof.
  intros Hinv.
  assert (Hempty : rows (filter_range raw start_date end_date) = []).
  { rewrite rows_filter_range. apply filter_keeps_none. intros x _.
    destruct (in_range start_date end_date x) eqn:E; [|reflexivity].
    apply in_range_iff in E as [H1 H2].
    pose proof (date_le_trans _ _ _ H1 H2) as H. unfold date_le in H. congruence. }
  split; [exact Hempty|].
  intros h df Hdf.
  destruct (script_run_empty h df raw start_date end_date Hdf Hempty) as (l & h' & _ & ->).
  reflexivity.
Qed.

Lemma inverted_bounds_sample :
  date_leb (mkdate 2019 3 1) (mkdate 2019 2 1) = false
  /\ rows (filter_range sample (mkdate 2019 3 1) (mkdate 2019 2 1)) = []
  /\ fst (script 1%positive (mkdate 2019 3 1) (mkdate 2019 2 1) sample_heap)
     = Raise IndexError.
Proof.
  split; [reflexivity|].
  destruct (inverted_bounds_stop_the_script sample (mkdate 2019 3 1) (mkdate 2019 2 1)
              eq_refl) as [H1 H2].
  split; [exact H1 | exact (H2 sample_heap 1%positive eq_refl)].
Defined.

(** X4. On a table with the four columns, the key figures of lines 85-92
    and 119 are computed exactly when some record of the table has its date
    in the chosen range.  When none has, [calculate_metrics] raises
    [IndexError], whatever the values of the table are. *)
Theorem key_figures_iff_range_has_a_record (raw : DataFrame) (s e : date) :
  ((exists m, compute_summary (filter_range raw s e) = Ok m) <->
   (exists r, In r (rows raw) /\ date_le s (Date r) /\ date_le (Date r) e))
  /\ ((forall r, In r (rows raw) -> ~ (date_le s (Date r) /\ date_le (Date r) e)) ->
      calculate_metrics (filter_range raw s e) = Raise IndexError
      /\ compute_summary (filter_range raw s e) = Raise IndexError).
Proof.
  assert (Hin : forall r, In r (rows (filter_range raw s e)) <->
                          In r (rows raw) /\ date_le s (Date r) /\ date_le (Date r) e).
  { intros r. rewrite rows_filter_range, List.filter_In, in_range_iff. tauto. }
  destruct (rows (filter_range raw s e)) as [|r0 rest] eqn:Hrows.
  - assert (Hraise : calculate_metrics (filter_range raw s e) = Raise IndexError)
      by now apply calculate_metrics_empty.
    assert (Hsum : compute_summary (filter_range raw s e) = Raise IndexError)
      by (unfold compute_summary; now rewrite Hraise).
    split; [split|].
    + intros [m Hm]. rewrite Hsum in Hm. discriminate Hm.
    + intros (r & Hr). apply Hin in Hr. destruct Hr.
    + intros _. now split.
  - split; [split|].
    + intros _. exists r0. apply Hin. now left.
    + intros _. rewrite (compute_summary_nonempty _ r0 rest Hrows). now eexists.
    + intros Hnone. exfalso. apply (Hnone r0); apply (Hin r0); now left.
Qed.

Lemma key_figures_sample :
  (exists m,
     compute_summary (filter_range sample (mkdate 2019 2 1) (mkdate 2019 3 31)) = Ok m)
  <-> (exists r, In r (rows sample)
                 /\ date_le (mkdate 2019 2 1) (Date r)
                 /\ date_le (Date r) (mkdate 2019 3 31)).
Proof.
  exact (proj1 (key_figures_iff_range_has_a_record sample
                  (mkdate 2019 2 1) (mkdate 2019 3 31))).
Defined.

(** ** Year-over-year change on short and on unchanged series *)

Lemma firstn_repeat_le {A} (x : A) (k n : nat) :
  (k <= n)%nat -> firstn k (repeat x n) = repeat x k.
Proof.
  revert n. induction k as [|k IH]; intros [|n] Hk; cbn; try reflexivity; try lia.
  f_equal. apply IH. lia.
Qed.

Lemma shift_short (n : nat) (s : Series) :
  (length s <= n)%nat -> shift n s = repeat nan (length s).
Proof.
  intros Hlen. unfold shift.
  rewrite List.firstn_app, List.repeat_length.
  replace (length s - n)%nat with 0%nat by lia. cbn [firstn]. rewrite List.app_nil_r.
  now apply firstn_repeat_le.
Qed.

Lemma sdiv_repeat_nan (s : Series) :
  sdiv s (repeat nan (length s)) = repeat nan (length s).
Proof.
  unfold sdiv. induction s as [|x s IH]; [reflexivity|].
  cbn [length repeat szip]. now rewrite IH, Binary64.div_nan_r.
Qed.

Lemma map_repeat {A B} (f : A -> B) (x : A) (n : nat) :
  List.map f (repeat x n) = repeat (f x) n.
Proof. induction n as [|n IH]; [reflexivity|]. cbn. now rewrite IH. Qed.

(** X5. On a range of at most 12 records the year-over-year column has no
    defined value at all: every cell is NaN. *)
Theorem year_over_year_short_range_all_nan
    (df : DataFrame) (col : string) (s : Series) :
  getitem df col = Ok s ->
  (length s <= 12)%nat ->
  year_over_year df col = Ok (repeat nan (length s)).
Proof.
  intros Hget Hlen. unfold year_over_year. rewrite Hget. cbn [rbind].
  unfold pct_change, smul_scalar, ssub_scalar.
  rewrite (shift_short 12 (ffill s)) by now rewrite ffill_length.
  rewrite sdiv_repeat_nan, !map_repeat, ffill_length. reflexivity.
Qed.

Lemma year_over_year_short_sample :
  getitem sample "US_CPI" = Ok [100; 101; 102]%float
  /\ (length [100; 101; 102]%float <= 12)%nat
  /\ year_over_year sample "US_CPI" = Ok [nan; nan; nan].
Proof.
  assert (Hlen : (length [100; 101; 102]%float <= 12)%nat) by (cbn; lia).
  split; [reflexivity|]. split; [exact Hlen|].
  exact (year_over_year_short_range_all_nan sample "US_CPI" _ eq_refl Hlen).
Defined.

(** X6. Where a record holds the same finite nonzero value as the record 12
    places before it, the year-over-year change is exactly 0. *)
Theorem year_over_year_unchanged_is_zero
    (df : DataFrame) (col : string) (s : Series) (i : nat) (x : float) :
  getitem df col = Ok s ->
  (12 <= i)%nat ->
  nth_error s i = Some x ->
  nth_error s (i - 12) = Some x ->
  finite_nonzero x = true ->
  exists out, year_over_year df col = Ok out /\ nth_error out i = Some 0%float.
Proof.
  intros Hget Hi Hx Hy Hfin. unfold year_over_year. rewrite Hget. cbn [rbind].
  eexists. split; [reflexivity|]. unfold smul_scalar.
  assert (Hnan : is_nan x = false) by now apply finite_nonzero_not_nan.
  rewrite List.nth_error_map, pct_change_nth_error.
  rewrite (ffill_keeps_value s i x Hx Hnan).
  assert (i < length s)%nat by (apply List.nth_error_Some; congruence).
  rewrite shift_nth_error_late by (rewrite ?ffill_length; lia).
  rewrite (ffill_keeps_value s (i - 12) x Hy Hnan). cbn [option_map].
  now rewrite (Binary64.div_self x Hfin).
Qed.

Lemma year_over_year_unchanged_monthly :
  exists s,
    getitem monthly "Exchange_Rate_INR_USD" = Ok s
    /\ (12 <= 13)%nat
    /\ nth_error s 13 = Some 70%float
    /\ nth_error s (13 - 12) = Some 70%float
    /\ finite_nonzero 70 = true
    /\ exists out,
         year_over_year monthly "Exchange_Rate_INR_USD" = Ok out
         /\ nth_error out 13 = Some 0%float.
Proof.
  exists (List.map Exchange_Rate_INR_USD monthly_rows).
  assert (Hi : (12 <= 13)%nat) by lia.
  split; [reflexivity|]. split; [exact Hi|]. split; [reflexivity|].
  split; [reflexivity|]. split; [reflexivity|].
  exact (year_over_year_unchanged_is_zero monthly "Exchange_Rate_INR_USD" _ 13 70
           eq_refl Hi eq_refl eq_refl eq_refl).
Defined.

(** ** A range of one record *)

(** X7. When the range selects a single record whose three values are
    finite and nonzero, the three cumulative changes and the inflation
    differential are all exactly 0. *)
Theorem single_record_summary_is_zero (df : DataFrame) (r : row) :
  rows df = [r] ->
  finite_nonzero (US_CPI r) = true ->
  finite_nonzero (India_CPI r) = true ->
  finite_nonzero (Exchange_Rate_INR_USD r) = true ->
  compute_summary df = Ok (mksummary 0 0 0 0).
Proof.
  intros Hrows Hus Hin Hfx.
  rewrite (compute_summary_nonempty df r [] Hrows). cbn [List.last].
  unfold percent_change.
  rewrite (Binary64.div_self _ Hus), (Binary64.div_self _ Hin), (Binary64.div_self _ Hfx).
  reflexivity.
Qed.

Lemma single_record_sample :
  rows (filter_range sample (mkdate 2019 2 1) (mkdate 2019 2 28))
    = [mkrow 1 (mkdate 2019 2 28) 101 96 71]
  /\ finite_nonzero 101 = true /\ finite_nonzero 96 = true /\ finite_nonzero 71 = true
  /\ compute_summary (filter_range sample (mkdate 2019 2 1) (mkdate 2019 2 28))
     = Ok (mksummary 0 0 0 0).
Proof.
  split; [reflexivity|]. split; [reflexivity|]. split; [reflexivity|].
  split; [reflexivity|].
  exact (single_record_summary_is_zero
           (filter_range sample (mkdate 2019 2 1) (mkdate 2019 2 28)) _
           eq_refl eq_refl eq_refl eq_refl).
Defined.

(** ** More on the date-range filter *)

Lemma filter_filter_and {A} (p q : A -> bool) (l : list A) :
  List.filter p (List.filter q l) = List.filter (fun x => q x && p x) l.
Proof.
  induction l as [|x l IH]; [reflexivity|]. cbn.
  destruct (q x); cbn; [destruct (p x)|]; now rewrite IH.
Qed.

(** X8. Filtering to one range and then to another keeps exactly the
    records whose date lies in both ranges, in the order of the table, and
    it does not matter which of the two filters is applied first. *)
Theorem filter_range_twice_intersects (raw : DataFrame) (s1 e1 s2 e2 : date) :
  rows (filter_range (filter_range raw s1 e1) s2 e2)
    = List.filter (fun r => in_range s1 e1 r && in_range s2 e2 r) (rows raw)
  /\ rows (filter_range (filter_range raw s1 e1) s2 e2)
     = rows (filter_range (filter_range raw s2 e2) s1 e1).
Proof.
  rewrite !rows_filter_range, !filter_filter_and. split; [reflexivity|].
  apply List.filter_ext. intros r. apply andb_comm.
Qed.

Lemma filter_sublist {A} (p : A -> bool) (l : list A) : sublist (List.filter p l) l.
Proof.
  induction l as [|x l IH]; cbn; [constructor|].
  destruct (p x); now constructor.
Qed.

Lemma filter_strongly_sorted {A} (R : A -> A -> Prop) (p : A -> bool) (l : list A) :
  StronglySorted R l -> StronglySorted R (List.filter p l).
Proof.
  induction 1 as [|x l Hs IH Hx]; cbn; [constructor|].
  destruct (p x); [|exact IH]. constructor; [exact IH|].
  apply List.Forall_forall. intros y Hy. apply List.filter_In in Hy as [Hy _].
  revert y Hy. now apply List.Forall_forall.
Qed.

(** X9. The filter only drops records: what it keeps is a subsequence of the
    table, each record with its index label and values as loaded, whatever
    the order of the table is; and a table sorted by date stays sorted by
    date. *)
Theorem filter_range_keeps_order (raw : DataFrame) (s e : date) :
  sublist (rows (filter_range raw s e)) (rows raw)
  /\ (sorted_by_date raw -> sorted_by_date (filter_range raw s e)).
Proof.
  unfold sorted_by_date. rewrite rows_filter_range.
  split; [apply filter_sublist|]. intros Hsorted.
  apply StronglySorted_Sorted, filter_strongly_sorted.
  apply Sorted_StronglySorted; [|exact Hsorted].
  intros a b c. apply date_le_trans.
Qed.

Lemma filter_range_keeps_order_sample :
  sorted_by_date sample
  /\ sublist (rows (filter_range sample (mkdate 2019 2 1) (mkdate 2019 3 31)))
             (rows sample)
  /\ sorted_by_date (filter_range sample (mkdate 2019 2 1) (mkdate 2019 3 31)).
Proof.
  assert (Hs : sorted_by_date sample).
  { unfold sorted_by_date, sample, sample_rows. cbn [rows]. repeat constructor. }
  split; [exact Hs|].
  destruct (filter_range_keeps_order sample (mkdate 2019 2 1) (mkdate 2019 3 31))
    as [Hsub Hkeep].
  split; [exact Hsub | exact (Hkeep Hs)].
Defined.

(** ** Columns stay aligned with the records *)

Lemma select_map_length {A B} (p : A -> bool) (l : list A) (c : list B) :
  length c = length l ->
  length (select (List.map p l) c) = length (List.filter p l).
Proof.
  revert c. induction l as [|x l IH]; intros [|y c] Hlen; cbn in *; try congruence.
  destruct (p x); cbn; [f_equal|]; apply IH; congruence.
Qed.

(** X10. If every column of the loaded table has one cell per record, so
    has every column of the filtered copy. *)
Theorem filter_range_keeps_columns_aligned (raw : DataFrame) (s e : date) :
  aligned raw -> aligned (filter_range raw s e).
Proof.
  unfold aligned. intros H. rewrite rows_filter_range.
  unfold filter_range, copy, getitem_mask, date_mask. cbn [added].
  apply List.Forall_map. eapply List.Forall_impl; [|exact H].
  intros [k c] Hc. cbn [fst snd] in *. fold (in_range s e).
  now apply select_map_length.
Qed.

Lemma filter_range_aligned_sample :
  aligned (setitem sample "Note" [1; 2; 3]%float)
  /\ aligned (filter_range (setitem sample "Note" [1; 2; 3]%float)
                           (mkdate 2019 2 1) (mkdate 2019 3 31)).
Proof.
  assert (H : aligned (setitem sample "Note" [1; 2; 3]%float))
    by (unfold aligned; cbn; repeat constructor).
  split; [exact H|].
  exact (filter_range_keeps_columns_aligned _ (mkdate 2019 2 1) (mkdate 2019 3 31) H).
Defined.

Lemma assoc_In (name : string) (cs : list (string * Series)) (c : Series) :
  assoc name cs = Some c -> In (name, c) cs.
Proof.
  induction cs as [|[k v] cs IH]; cbn; [discriminate|].
  destruct (String.eqb k name) eqn:E.
  - intros H. injection H as <-. apply String.eqb_eq in E. subst k. now left.
  - intros H. right. now apply IH.
Qed.

(** In an aligned frame every column that can be read has one cell per
    record. *)
Lemma getitem_length (d : DataFrame) (name : string) (c : Series) :
  aligned d -> getitem d name = Ok c -> length c = length (rows d).
Proof.
  intros Hal. unfold getitem.
  destruct (String.eqb name "US_CPI");
    [intros H; injection H as <-; apply List.length_map|].
  destruct (String.eqb name "India_CPI");
    [intros H; injection H as <-; apply List.length_map|].
  destruct (String.eqb name "Exchange_Rate_INR_USD");
    [intros H; injection H as <-; apply List.length_map|].
  destruct (assoc name (added d)) as [c'|] eqn:E; [|discriminate].
  intros H. injection H as <-. apply assoc_In in E.
  unfold aligned in Hal. rewrite List.Forall_forall in Hal. exact (Hal _ E).
Qed.

Lemma setitem_aligned (d : DataFrame) (name : string) (s : Series) :
  aligned d -> length s = length (rows d) -> aligned (setitem d name s).
Proof.
  unfold aligned, setitem. cbn [rows added]. intros Hal Hlen.
  induction Hal as [|[k v] cs Hk Htail IH]; cbn [assoc_set].
  - now repeat constructor.
  - destruct (String.eqb k name); constructor; assumption.
Qed.

Lemma with_column_aligned (d d1 : DataFrame) (name : string)
    (expr : DataFrame -> result Series) :
  aligned d ->
  (forall s, expr d = Ok s -> length s = length (rows d)) ->
  with_column d name expr = Ok d1 ->
  aligned d1 /\ rows d1 = rows d.
Proof.
  intros Hal Hlen. unfold with_column.
  destruct (expr d) as [s|] eqn:E; [|discriminate]. cbn [rbind].
  intros H. injection H as <-. split; [|reflexivity].
  apply setitem_aligned; auto.
Qed.

Lemma year_over_year_length (d : DataFrame) (col : string) (out : Series) :
  aligned d -> year_over_year d col = Ok out -> length out = length (rows d).
Proof.
  intros Hal. unfold year_over_year.
  destruct (getitem d col) as [s|] eqn:E; [|discriminate]. cbn [rbind].
  intros H. injection H as <-.
  unfold smul_scalar, pct_change, ssub_scalar, sdiv.
  rewrite !List.length_map, szip_length by now rewrite shift_length.
  rewrite ffill_length. exact (getitem_length d col s Hal E).
Qed.

Lemma normalize_length (d : DataFrame) (col : string) (out : Series) :
  aligned d -> normalize d col = Ok out -> length out = length (rows d).
Proof.
  intros Hal. unfold normalize.
  destruct (getitem d col) as [s|] eqn:E; [|discriminate]. cbn [rbind].
  destruct (iloc s 0) as [base|]; [|discriminate]. cbn [rbind].
  intros H. injection H as <-.
  unfold smul_scalar, sdiv_scalar. rewrite !List.length_map.
  exact (getitem_length d col s Hal E).
Qed.

Lemma ppp_implied_length (d : DataFrame) (out : Series) :
  ppp_implied d = Ok out -> length out = length (rows d).
Proof.
  destruct (rows d) as [|r0 rest] eqn:Hrows.
  - now rewrite (ppp_implied_empty d Hrows).
  - rewrite (ppp_implied_nonempty d r0 rest Hrows). intros H. injection H as <-.
    now rewrite List.length_map, Hrows.
Qed.

Lemma ppp_deviation_length (d : DataFrame) (out : Series) :
  aligned d -> ppp_deviation d = Ok out -> length out = length (rows d).
Proof.
  intros Hal. unfold ppp_deviation. rewrite getitem_Exchange_Rate. cbn [rbind].
  destruct (getitem d "PPP_Implied") as [p|] eqn:E; [|discriminate]. cbn [rbind].
  intros H. injection H as <-.
  pose proof (getitem_length d _ p Hal E) as Hp.
  unfold smul_scalar, sdiv, ssub. rewrite List.length_map.
  rewrite szip_length; rewrite szip_length; rewrite ?List.length_map; auto.
Qed.

Lemma derived_table_aligned (d d' : DataFrame) :
  aligned d -> derived_table d = Ok d' -> aligned d' /\ rows d' = rows d.
Proof.
  intros Hal. unfold derived_table.
  destruct (with_column d "US_Inflation_YoY" _) as [d1|] eqn:E1; [|discriminate].
  apply with_column_aligned in E1 as [A1 R1];
    [|assumption|intros s; now apply year_over_year_length].
  cbn [rbind].
  destruct (with_column d1 "India_Inflation_YoY" _) as [d2|] eqn:E2; [|discriminate].
  apply with_column_aligned in E2 as [A2 R2];
    [|assumption|intros s; now apply year_over_year_length].
  cbn [rbind].
  destruct (with_column d2 "US_CPI_Normalized" _) as [d3|] eqn:E3; [|discriminate].
  apply with_column_aligned in E3 as [A3 R3];
    [|assumption|intros s; now apply normalize_length].
  cbn [rbind].
  destruct (with_column d3 "India_CPI_Normalized" _) as [d4|] eqn:E4; [|discriminate].
  apply with_column_aligned in E4 as [A4 R4];
    [|assumption|intros s; now apply normalize_length].
  cbn [rbind].
  destruct (with_column d4 "Exchange_Rate_Normalized" _) as [d5|] eqn:E5; [|discriminate].
  apply with_column_aligned in E5 as [A5 R5];
    [|assumption|intros s; now apply normalize_length].
  cbn [rbind].
  destruct (with_column d5 "PPP_Implied" _) as [d6|] eqn:E6; [|discriminate].
  apply with_column_aligned in E6 as [A6 R6];
    [|assumption|intros s; now apply ppp_implied_length].
  cbn [rbind]. intros E7.
  apply with_column_aligned in E7 as [A7 R7];
    [|assumption|intros s; now apply ppp_deviation_length].
  split; [exact A7|]. congruence.
Qed.

(** X11. On a frame with at least one record whose columns are aligned, the
    seven column assignments all succeed, leave the records as they are,
    keep every column aligned, and each of the seven derived columns can
    then be read and has one cell per record. *)
Theorem derived_table_keeps_columns_aligned
    (d : DataFrame) (r0 : row) (rest : list row) :
  rows d = r0 :: rest ->
  aligned d ->
  exists d',
    derived_table d = Ok d'
    /\ rows d' = rows d
    /\ aligned d'
    /\ (forall name, In name derived_names ->
          exists c, getitem d' name = Ok c /\ length c = length (rows d)).
Proof.
  intros Hrows Hal.
  destruct (derived_table_nonempty d r0 rest Hrows)
    as (d' & p & Hd & _ & Hp & G1 & G2 & G3 & G4 & G5 & G6 & G7).
  destruct (derived_table_aligned d d' Hal Hd) as [Hal' Hr'].
  exists d'. split; [exact Hd|]. split; [exact Hr'|]. split; [exact Hal'|].
  assert (Hread : forall name c, getitem d' name = Ok c ->
            exists c, getitem d' name = Ok c /\ length c = length (rows d)).
  { intros name c Hc. exists c. split; [exact Hc|].
    rewrite <- Hr'. now apply (getitem_length d' name). }
  assert (N3 : exists c, normalize d "US_CPI" = Ok c).
  { eexists. eapply normalize_nonempty. now rewrite getitem_US_CPI, Hrows. }
  assert (N4 : exists c, normalize d "India_CPI" = Ok c).
  { eexists. eapply normalize_nonempty. now rewrite getitem_India_CPI, Hrows. }
  assert (N5 : exists c, normalize d "Exchange_Rate_INR_USD" = Ok c).
  { eexists. eapply normalize_nonempty. now rewrite getitem_Exchange_Rate, Hrows. }
  destruct N3 as [c3 N3], N4 as [c4 N4], N5 as [c5 N5].
  rewrite N3 in G3. rewrite N4 in G4. rewrite N5 in G5.
  change (year_over_year d "US_CPI")
    with (Ok (smul_scalar (pct_change 12 (List.map US_CPI (rows d))) 100)) in G1.
  change (year_over_year d "India_CPI")
    with (Ok (smul_scalar (pct_change 12 (List.map India_CPI (rows d))) 100)) in G2.
  intros name Hname. cbn [derived_names In] in Hname.
  destruct Hname as [<-|[<-|[<-|[<-|[<-|[<-|[<-|[]]]]]]]];
    eapply Hread; eassumption.
Qed.

Lemma derived_table_aligned_sample :
  rows sample = mkrow 0 (mkdate 2019 1 31) 100 100 60 :: List.tl sample_rows
  /\ aligned sample
  /\ exists d',
       derived_table sample = Ok d'
       /\ rows d' = rows sample
       /\ aligned d'
       /\ (forall name, In name derived_names ->
             exists c, getitem d' name = Ok c /\ length c = length (rows sample)).
Proof.
  assert (Hal : aligned sample) by constructor.
  split; [reflexivity|]. split; [exact Hal|].
  exact (derived_table_keeps_columns_aligned sample _ _ eq_refl Hal).
Defined.

(** ** The table shown and downloaded *)

Lemma derived_table_columns_present (d : DataFrame) (r0 : row) (rest : list row) :
  rows d = r0 :: rest ->
  exists d',
    derived_table d = Ok d'
    /\ rows d' = rows d
    /\ (forall name, In name derived_names -> exists c, getitem d' name = Ok c).
Proof.
  intros Hrows.
  destruct (derived_table_nonempty d r0 rest Hrows)
    as (d' & p & Hd & Hr & Hp & G1 & G2 & G3 & G4 & G5 & G6 & G7).
  exists d'. split; [exact Hd|]. split; [exact Hr|].
  rewrite (normalize_nonempty d "US_CPI" (US_CPI r0) (List.map US_CPI rest)) in G3
    by (now rewrite getitem_US_CPI, Hrows).
  rewrite (normalize_nonempty d "India_CPI" (India_CPI r0) (List.map India_CPI rest)) in G4
    by (now rewrite getitem_India_CPI, Hrows).
  rewrite (normalize_nonempty d "Exchange_Rate_INR_USD" (Exchange_Rate_INR_USD r0)
             (List.map Exchange_Rate_INR_USD rest)) in G5
    by (now rewrite getitem_Exchange_Rate, Hrows).
  change (year_over_year d "US_CPI")
    with (Ok (smul_scalar (pct_change 12 (List.map US_CPI (rows d))) 100)) in G1.
  change (year_over_year d "India_CPI")
    with (Ok (smul_scalar (pct_change 12 (List.map India_CPI (rows d))) 100)) in G2.
  intros name Hname. cbn [derived_names In] in Hname.
  destruct Hname as [<-|[<-|[<-|[<-|[<-|[<-|[<-|[]]]]]]]];
    eexists; eassumption.
Qed.

(** X12. For a range that selects a record.  Without the "show all" box the
    table shown and downloaded holds the filtered records with the four
    columns of line 367 and nothing else: none of the seven derived columns
    can be read from it, and a further column of the loaded table is left
    out as well, so it is the filtered copy as it was before the derived
    columns were added exactly when that copy had no further column.  With
    the box every one of the seven derived columns is in the table shown.
    The records are the filtered ones either way. *)
Theorem display_df_hides_derived_columns
    (raw : DataFrame) (s e : date) (r0 : row) (rest : list row) :
  rows (filter_range raw s e) = r0 :: rest ->
  exists d',
    derived_table (filter_range raw s e) = Ok d'
    /\ (forall show_all, rows (display_df show_all d') = rows (filter_range raw s e))
    /\ added (display_df false d') = []
    /\ (forall name, In name derived_names ->
          getitem (display_df false d') name = Raise KeyError)
    /\ (forall name, In name derived_names ->
          exists c, getitem (display_df true d') name = Ok c)
    /\ (display_df false d' = filter_range raw s e
        <-> added (filter_range raw s e) = []).
Proof.
  intros Hrows.
  destruct (derived_table_columns_present _ r0 rest Hrows) as (d' & Hd & Hr & Hcols).
  exists d'. split; [exact Hd|]. split; [|split; [reflexivity|split; [|split]]].
  - intros [|]; [exact Hr|]. unfold display_df. cbn [rows]. exact Hr.
  - intros name Hname. cbn [derived_names In] in Hname.
    destruct Hname as [<-|[<-|[<-|[<-|[<-|[<-|[<-|[]]]]]]]]; reflexivity.
  - exact Hcols.
  - unfold display_df. rewrite Hr. split.
    + intros <-. reflexivity.
    + intros Hadded. destruct (filter_range raw s e) as [rs ad].
      cbn [rows added] in *. now rewrite Hadded.
Qed.

Lemma display_df_sample :
  rows (filter_range sample (mkdate 2019 2 1) (mkdate 2019 3 31))
    = mkrow 1 (mkdate 2019 2 28) 101 96 71 :: [mkrow 2 (mkdate 2019 3 31) 102 104 72]
  /\ exists d',
       derived_table (filter_range sample (mkdate 2019 2 1) (mkdate 2019 3 31)) = Ok d'
       /\ (forall show_all,
             rows (display_df show_all d')
             = rows (filter_range sample (mkdate 2019 2 1) (mkdate 2019 3 31)))
       /\ added (display_df false d') = []
       /\ (forall name, In name derived_names ->
             getitem (display_df false d') name = Raise KeyError)
       /\ (forall name, In name derived_names ->
             exists c, getitem (display_df true d') name = Ok c)
       /\ (display_df false d' = filter_range sample (mkdate 2019 2 1) (mkdate 2019 3 31)
           <-> added (filter_range sample (mkdate 2019 2 1) (mkdate 2019 3 31)) = []).
Proof.
  split; [reflexivity|].
  exact (display_df_hides_derived_columns sample (mkdate 2019 2 1) (mkdate 2019 3 31)
           _ _ eq_refl).
Defined.

(** ** The deviation at the anchor *)

Module Binary64Zero.

Lemma SFsub_self (s : bool) (m : positive) (e : Z) :
  SF64sub (S754_finite s m e) (S754_finite s m e) = S754_zero false.
Proof. unfold SF64sub, SFsub. now rewrite Z.sub_diag. Qed.

(** [(x - x) / x * 100] is a zero for every finite nonzero [x]. *)
Lemma relative_gap_self (x : float) :
  finite_nonzero x = true -> is_zero ((x - x) / x * 100) = true.
Proof.
  rewrite Binary64.finite_nonzero_SF, Binary64.is_zero_SF. intros Hx.
  rewrite mul_spec, div_spec, sub_spec.
  destruct (Prim2SF x) as [s|s| |s m e]; try discriminate.
  rewrite SFsub_self.
  change (Prim2SF 100) with (S754_finite false 7036874417766400 (-46)).
  reflexivity.
Qed.

End Binary64Zero.

(** X13. When India_CPI and US_CPI of the first record are equal (finite and
    nonzero) and its exchange rate is finite and nonzero, the PPP deviation
    of the first record is zero: the implied rate starts at the actual
    rate. *)
Theorem ppp_deviation_starts_at_zero (d : DataFrame) (r0 : row) (rest : list row) :
  rows d = r0 :: rest ->
  India_CPI r0 = US_CPI r0 ->
  finite_nonzero (US_CPI r0) = true ->
  finite_nonzero (Exchange_Rate_INR_USD r0) = true ->
  exists d' dev v,
    derived_table d = Ok d'
    /\ getitem d' "PPP_Deviation" = Ok dev
    /\ nth_error dev 0 = Some v
    /\ is_zero v = true.
Proof.
  intros Hrows Heq Hcpi Hfx.
  destruct (derived_table_nonempty d r0 rest Hrows)
    as (d' & p & Hd & _ & Hp & _ & _ & _ & _ & _ & _ & Hdev).
  destruct (ppp_implied_anchor_exact d r0 rest Hrows Heq Hcpi) as (out & Hout & H0).
  rewrite Hp in Hout. injection Hout as <-.
  eexists d', _, _. split; [exact Hd|]. split; [exact Hdev|]. split.
  - unfold smul_scalar, sdiv, ssub.
    rewrite List.nth_error_map, !szip_nth_error, H0, Hrows. cbn [List.map nth_error option_map].
    reflexivity.
  - now apply Binary64Zero.relative_gap_self.
Qed.

Lemma ppp_deviation_starts_at_zero_sample :
  rows sample = mkrow 0 (mkdate 2019 1 31) 100 100 60 :: List.tl sample_rows
  /\ 100%float = 100%float
  /\ finite_nonzero 100 = true
  /\ finite_nonzero 60 = true
  /\ exists d' dev v,
       derived_table sample = Ok d'
       /\ getitem d' "PPP_Deviation" = Ok dev
       /\ nth_error dev 0 = Some v
       /\ is_zero v = true.
Proof.
  split; [reflexivity|]. split; [reflexivity|]. split; [reflexivity|].
  split; [reflexivity|].
  exact (ppp_deviation_starts_at_zero sample _ _ eq_refl eq_refl eq_refl eq_refl).
Defined.

(** ** The sample table *)



(** ** Missing cells *)

Module Binary64NaN.

Lemma nan_div_l (x y : float) : is_nan x = true -> is_nan (x / y) = true.
Proof.
  rewrite !Binary64.is_nan_SF, div_spec.
  destruct (Prim2SF x); try discriminate. intros _. now destruct (Prim2SF y).
Qed.

Lemma nan_div_r (x y : float) : is_nan y = true -> is_nan (x / y) = true.
Proof.
  rewrite !Binary64.is_nan_SF, div_spec.
  destruct (Prim2SF y); try discriminate. intros _. now destruct (Prim2SF x).
Qed.

Lemma nan_mul_l (x y : float) : is_nan x = true -> is_nan (x * y) = true.
Proof.
  rewrite !Binary64.is_nan_SF, mul_spec.
  destruct (Prim2SF x); try discriminate. intros _. now destruct (Prim2SF y).
Qed.

Lemma nan_mul_r (x y : float) : is_nan y = true -> is_nan (x * y) = true.
Proof.
  rewrite !Binary64.is_nan_SF, mul_spec.
  destruct (Prim2SF y); try discriminate. intros _. now destruct (Prim2SF x).
Qed.

Lemma nan_sub_l (x y : float) : is_nan x = true -> is_nan (x - y) = true.
Proof.
  rewrite !Binary64.is_nan_SF, sub_spec.
  destruct (Prim2SF x); try discriminate. intros _. now destruct (Prim2SF y).
Qed.

Lemma nan_sub_r (x y : float) : is_nan y = true -> is_nan (x - y) = true.
Proof.
  rewrite !Binary64.is_nan_SF, sub_spec.
  destruct (Prim2SF y); try discriminate. intros _. now destruct (Prim2SF x).
Qed.

End Binary64NaN.

(** X15. A missing (NaN) CPI cell raises nothing and spreads: the record's
    PPP implied rate is NaN; when the cell is in the first record, every
    cell of that CPI's normalised column is NaN; and when it is the first
    US_CPI cell, the US cumulative change and the inflation differential
    shown are NaN. *)
Theorem missing_cpi_cell_spreads (d : DataFrame) (r0 : row) (rest : list row) :
  rows d = r0 :: rest ->
  (forall i r, nth_error (rows d) i = Some r ->
     is_nan (US_CPI r) || is_nan (India_CPI r) = true ->
     exists out v,
       ppp_implied d = Ok out /\ nth_error out i = Some v /\ is_nan v = true)
  /\ (is_nan (US_CPI r0) = true ->
      exists out,
        normalize d "US_CPI" = Ok out /\ Forall (fun v => is_nan v = true) out)
  /\ (is_nan (India_CPI r0) = true ->
      exists out,
        normalize d "India_CPI" = Ok out /\ Forall (fun v => is_nan v = true) out)
  /\ (is_nan (US_CPI r0) = true ->
      exists m,
        compute_summary d = Ok m
        /\ is_nan (us_inf m) = true /\ is_nan (inflation_diff m) = true).
Proof.
  intros Hrows. split; [|split; [|split]].
  - intros i r Hi Hnan. rewrite (ppp_implied_nonempty d r0 rest Hrows).
    eexists _, _. split; [reflexivity|].
    rewrite List.nth_error_map, Hi. cbn [option_map]. split; [reflexivity|].
    apply Binary64NaN.nan_div_l, Binary64NaN.nan_mul_r.
    apply orb_true_iff in Hnan as [Hn|Hn].
    + now apply Binary64NaN.nan_div_r.
    + now apply Binary64NaN.nan_div_l.
  - intros Hnan.
    rewrite (normalize_nonempty d "US_CPI" (US_CPI r0) (List.map US_CPI rest))
      by (now rewrite getitem_US_CPI, Hrows).
    eexists. split; [reflexivity|]. apply Forall_map_intro. intros v.
    now apply Binary64NaN.nan_mul_l, Binary64NaN.nan_div_r.
  - intros Hnan.
    rewrite (normalize_nonempty d "India_CPI" (India_CPI r0) (List.map India_CPI rest))
      by (now rewrite getitem_India_CPI, Hrows).
    eexists. split; [reflexivity|]. apply Forall_map_intro. intros v.
    now apply Binary64NaN.nan_mul_l, Binary64NaN.nan_div_r.
  - intros Hnan. rewrite (compute_summary_nonempty d r0 rest Hrows).
    eexists. split; [reflexivity|]. cbn [us_inf inflation_diff].
    assert (Hus : is_nan (percent_change (US_CPI r0) (US_CPI (List.last rest r0))) = true).
    { unfold percent_change.
      now apply Binary64NaN.nan_mul_l, Binary64NaN.nan_sub_l, Binary64NaN.nan_div_r. }
    split; [exact Hus|]. now apply Binary64NaN.nan_sub_r.
Qed.

Lemma missing_cpi_cell_sample :
  exists out v,
    ppp_implied
      (mkframe [ mkrow 0 (mkdate 2019 1 31) 100 100 60;
                 mkrow 1 (mkdate 2019 2 28) nan 96 71 ] []) = Ok out
    /\ nth_error out 1 = Some v /\ is_nan v = true.
Proof.
  exact (proj1
           (missing_cpi_cell_spreads
              (mkframe [ mkrow 0 (mkdate 2019 1 31) 100 100 60;
                         mkrow 1 (mkdate 2019 2 28) nan 96 71 ] [])
              _ _ eq_refl)
           1%nat (mkrow 1 (mkdate 2019 2 28) nan 96 71) eq_refl eq_refl).
Defined.
